(** * Inventory reorder pipeline: CSV parsing, forward-fill, SKU decoding,
      stock-out forecast and status classification.

    Shallow embedding of [services/googleSheetsService.ts] ([analyzeSkuMetadata],
    [fetchInventoryData], [generateMockData]) and of the type declarations of
    [types.ts].  Of [App.tsx] the updater of [toggleOrder] and the views
    [topSellers], [urgentReorders] and [stats] are embedded, and of
    [services/geminiService.ts] the selection of the records handed to the
    recommendation service.

    Conventions of the embedding.
    - A JavaScript string is the list of its UTF-16 code units ([jsstring]);
      [s.length] is the length of that list and [s[i]] the [i]-th unit.
    - An array element that does not exist ([row[40]] on a short row) is
      [undefined]; it is [None] here, a present element is [Some s].
    - The results of [parseInt] are integers ([Z]); [NaN] is [None].  The
      arithmetic on them ([/ 7], [* 0.5], [Math.floor]) is done on exact
      rationals ([Q]): the model is the source read with real-number
      arithmetic.  The rounding of binary64 is not modelled (there
      [9 / (9 / 7)] is a little below [7]); the statements below are about
      the formulas the service evaluates, read over the rationals.
    - The clock ([new Date()]) and the pseudo random generator
      ([Math.random()]) are explicit inputs: [now] is the local day the pass
      runs on, [rnd k] is the [k]-th draw of the pass. *)

From Stdlib Require Import List ZArith NArith QArith Qround Qabs Lia Lqa Bool Arith.
From Stdlib Require Import Ascii String DecimalString DecimalNat DecimalZ.
From Stdlib Require Import Permutation Sorted.
Import ListNotations.

(** ** The fragment of the JavaScript runtime the service relies on *)

Module JS.

(** *** Strings *)

Definition char := N.
Definition jsstring := list char.

(** String literals of the source are written as Rocq strings, which hold
    their UTF-8 bytes; [lit] decodes them to UTF-16 code units (every literal
    of the service lies in the Basic Multilingual Plane, so one, two and three
    byte sequences suffice; a four byte sequence is given as its surrogate
    pair). *)
Fixpoint utf8_decode (fuel : nat) (bs : list N) : jsstring :=
  match fuel with
  | O => []
  | S fuel' =>
    match bs with
    | [] => []
    | b0 :: r0 =>
      if (b0 <? 128)%N then b0 :: utf8_decode fuel' r0
      else if (b0 <? 224)%N then
        match r0 with
        | b1 :: r1 =>
            ((b0 mod 32) * 64 + b1 mod 64)%N :: utf8_decode fuel' r1
        | _ => []
        end
      else if (b0 <? 240)%N then
        match r0 with
        | b1 :: b2 :: r2 =>
            ((b0 mod 16) * 4096 + (b1 mod 64) * 64 + b2 mod 64)%N
              :: utf8_decode fuel' r2
        | _ => []
        end
      else
        match r0 with
        | b1 :: b2 :: b3 :: r3 =>
            let cp := ((b0 mod 8) * 262144 + (b1 mod 64) * 4096
                       + (b2 mod 64) * 64 + b3 mod 64)%N in
            let v := (cp - 65536)%N in
            (55296 + v / 1024)%N :: (56320 + v mod 1024)%N
              :: utf8_decode fuel' r3
        | _ => []
        end
    end
  end.

Definition bytes (s : string) : list N := map N_of_ascii (list_ascii_of_string s).

Definition lit (s : string) : jsstring := utf8_decode (String.length s) (bytes s).

(** [a === b] on strings. *)
Fixpoint str_eqb (a b : jsstring) : bool :=
  match a, b with
  | [], [] => true
  | x :: a', y :: b' => (x =? y)%N && str_eqb a' b'
  | _, _ => false
  end.

Definition QUOTE : char := 34%N.
Definition COMMA : char := 44%N.
Definition LF : char := 10%N.

(** [WhiteSpace] and [LineTerminator] code units, the set [trim] and
    [parseInt] strip. *)
Definition isWhiteSpace (c : char) : bool :=
  ((c =? 9) || (c =? 10) || (c =? 11) || (c =? 12) || (c =? 13) || (c =? 32)
   || (c =? 160) || (c =? 5760) || ((8192 <=? c) && (c <=? 8202))
   || (c =? 8232) || (c =? 8233) || (c =? 8239) || (c =? 8287)
   || (c =? 12288) || (c =? 65279))%N.

Fixpoint trimStart (s : jsstring) : jsstring :=
  match s with
  | [] => []
  | c :: s' => if isWhiteSpace c then trimStart s' else s
  end.

Definition trimEnd (s : jsstring) : jsstring := rev (trimStart (rev s)).

Definition trim (s : jsstring) : jsstring := trimEnd (trimStart s).

(** [s.substring(a, b)] for [a <= b]. *)
Definition substring (a b : nat) (s : jsstring) : jsstring :=
  firstn (b - a) (skipn a s).

(** [toUpperCase] on one code unit.  Besides a-z, two code units have an ASCII
    capital as their upper case (dotless i and long s); every other code unit
    is left as it is, which no comparison with the ASCII tables of the
    service can tell from its real upper case. *)
Definition upperUnit (c : char) : char :=
  if ((97 <=? c) && (c <=? 122))%N then (c - 32)%N
  else if (c =? 305)%N then 73%N
  else if (c =? 383)%N then 83%N
  else c.

Definition toUpperCase (s : jsstring) : jsstring := map upperUnit s.

(** [s.split('\n')]: the pieces between line feeds; always at least one. *)
Fixpoint splitLines_aux (cur : jsstring) (s : jsstring) : list jsstring :=
  match s with
  | [] => [rev cur]
  | c :: s' =>
      if (c =? LF)%N then rev cur :: splitLines_aux [] s'
      else splitLines_aux (c :: cur) s'
  end.

Definition splitLines (s : jsstring) : list jsstring := splitLines_aux [] s.

(** [arr.includes(x)] on an array of strings. *)
Definition includes (arr : list jsstring) (x : jsstring) : bool :=
  existsb (str_eqb x) arr.

(** *** Numbers *)

(** Decimal rendering of an integer, as in a template literal. *)
Definition ofString (s : string) : jsstring := bytes s.

Definition natToString (n : nat) : jsstring :=
  ofString (NilZero.string_of_uint (Nat.to_uint n)).

Definition intToString (z : Z) : jsstring :=
  ofString (NilZero.string_of_int (Z.to_int z)).

(** Value of a code unit as a digit of the given radix. *)
Definition digitVal (radix : Z) (c : char) : option Z :=
  let v :=
    if ((48 <=? c) && (c <=? 57))%N then Some (Z.of_N c - 48)%Z
    else if ((97 <=? c) && (c <=? 122))%N then Some (Z.of_N c - 87)%Z
    else if ((65 <=? c) && (c <=? 90))%N then Some (Z.of_N c - 55)%Z
    else None in
  match v with
  | Some d => if (d <? radix)%Z then Some d else None
  | None => None
  end.

(** The digits of the longest prefix of [s] made of radix-[radix] digits. *)
Fixpoint digitsPrefix (radix : Z) (s : jsstring) : list Z :=
  match s with
  | [] => []
  | c :: s' =>
      match digitVal radix c with
      | Some d => d :: digitsPrefix radix s'
      | None => []
      end
  end.

Definition mathInt (radix : Z) (ds : list Z) : Z :=
  fold_left (fun acc d => acc * radix + d)%Z ds 0%Z.

(** The steps of [parseInt] on the text left after the leading white space:
    the sign, the text after the sign, and the radix with the text after a
    [0x] or [0X] prefix. *)
Definition signOf (s : jsstring) : Z :=
  match s with
  | c :: _ => if (c =? 45)%N then (-1)%Z else 1%Z
  | [] => 1%Z
  end.

Definition dropSign (s : jsstring) : jsstring :=
  match s with
  | c :: r => if ((c =? 43) || (c =? 45))%N then r else s
  | [] => s
  end.

Definition radixOf (s : jsstring) : Z * jsstring :=
  match s with
  | c0 :: c1 :: r =>
      if ((c0 =? 48) && ((c1 =? 120) || (c1 =? 88)))%N then (16%Z, r)
      else (10%Z, s)
  | _ => (10%Z, s)
  end.

(** [parseInt(x)] with no radix argument.  [undefined] is first turned into
    the string "undefined"; leading white space, one sign and a [0x]/[0X]
    prefix are consumed; the value is that of the longest digit prefix and
    [NaN] ([None]) when that prefix is empty. *)
Definition parseInt (x : option jsstring) : option Z :=
  let inputString := match x with Some s => s | None => lit "undefined" end in
  let s0 := trimStart inputString in
  let '(radix, s2) := radixOf (dropSign s0) in
  match digitsPrefix radix s2 with
  | [] => None
  | ds => Some (signOf s0 * mathInt radix ds)%Z
  end.

(** [n || d] for a number [n]: [NaN] and zero are falsy. *)
Definition orNum (n : option Z) (d : Z) : Z :=
  match n with
  | Some v => if (v =? 0)%Z then d else v
  | None => d
  end.

(** [s || d] for a possibly undefined string [s]: [undefined] and the empty
    string are falsy. *)
Definition orStr (s : option jsstring) (d : jsstring) : jsstring :=
  match s with
  | Some (c :: r) => c :: r
  | _ => d
  end.

(** [Math.floor]. *)
Definition floor (x : Q) : Z := Qfloor x.

(** [parseFloat(x.toFixed(1))]: [toFixed(1)] picks the integer [n] for which
    [n / 10] is closest to [x] (the larger one on a tie, on the absolute
    value), and [parseFloat] reads the decimal back. *)
Definition toFixed1_tenths (x : Q) : Z :=
  if Qle_bool 0 x then Qfloor (x * 10 + (1 # 2))
  else (- Qfloor ((- x) * 10 + (1 # 2)))%Z.

Definition parseFloat_toFixed1 (x : Q) : Q := inject_Z (toFixed1_tenths x) / 10.

(** *** Dates

    A [Date] is kept as the number of its local day, counted from
    1 January 1970 (the time within the day plays no part in the service, and
    the bounds of the time value, one hundred million days either side of
    1970, are not modelled).  The calendar functions are those of the language
    definition: [DayFromYear], [YearFromTime], [MonthFromTime],
    [DateFromTime] and [MakeDay]. *)

Definition Date := Z.

Local Open Scope Z_scope.

Definition DayFromYear (y : Z) : Z :=
  365 * (y - 1970) + (y - 1969) / 4 - (y - 1901) / 100 + (y - 1601) / 400.

Definition isLeapYear (y : Z) : bool :=
  ((y mod 4 =? 0) && negb (y mod 100 =? 0)) || (y mod 400 =? 0).

(** The largest year whose first day is not after [d]: an estimate from the
    mean length of a year, moved by one where it is off. *)
Definition YearFromTime (d : Date) : Z :=
  let y := 1970 + (d * 400) / 146097 in
  if DayFromYear (y + 1) <=? d then y + 1
  else if DayFromYear y <=? d then y
  else y - 1.

Definition DayWithinYear (d : Date) : Z := d - DayFromYear (YearFromTime d).

(** Day within the year of the first day of month [m] (0 = January). *)
Definition monthStart (m : Z) (leap : bool) : Z :=
  let l := if leap then 1 else 0 in
  if m <=? 0 then 0
  else if m =? 1 then 31
  else if m =? 2 then 59 + l
  else if m =? 3 then 90 + l
  else if m =? 4 then 120 + l
  else if m =? 5 then 151 + l
  else if m =? 6 then 181 + l
  else if m =? 7 then 212 + l
  else if m =? 8 then 243 + l
  else if m =? 9 then 273 + l
  else if m =? 10 then 304 + l
  else 334 + l.

Definition MonthFromTime (d : Date) : Z :=
  let leap := isLeapYear (YearFromTime d) in
  let w := DayWithinYear d in
  if w <? monthStart 1 leap then 0
  else if w <? monthStart 2 leap then 1
  else if w <? monthStart 3 leap then 2
  else if w <? monthStart 4 leap then 3
  else if w <? monthStart 5 leap then 4
  else if w <? monthStart 6 leap then 5
  else if w <? monthStart 7 leap then 6
  else if w <? monthStart 8 leap then 7
  else if w <? monthStart 9 leap then 8
  else if w <? monthStart 10 leap then 9
  else if w <? monthStart 11 leap then 10
  else 11.

Definition DateFromTime (d : Date) : Z :=
  DayWithinYear d
  - monthStart (MonthFromTime d) (isLeapYear (YearFromTime d)) + 1.

(** [MakeDay(year, month, date)]: the day [date - 1] days after the first of
    the month, months beyond the year carried into the year. *)
Definition MakeDay (year month date : Z) : Z :=
  let ym := year + month / 12 in
  let mn := month mod 12 in
  DayFromYear ym + monthStart mn (isLeapYear ym) + date - 1.

Definition getMonth (d : Date) : Z := MonthFromTime d.
Definition getDate (d : Date) : Z := DateFromTime d.

(** [d.setDate(dt)]: the day of the month is replaced, out of range values
    running over into the neighbouring months. *)
Definition setDate (d : Date) (dt : Z) : Date :=
  MakeDay (YearFromTime d) (MonthFromTime d) dt.

(** [d.toLocaleDateString('ko-KR')]: year, month and day of the month, each
    followed by a full stop (years of the common era). *)
Definition toLocaleDateString (d : Date) : jsstring :=
  intToString (YearFromTime d) ++ lit ". "
  ++ intToString (MonthFromTime d + 1) ++ lit ". "
  ++ intToString (DateFromTime d) ++ lit ".".

Local Close Scope Z_scope.

End JS.

Import JS.

(** ** [types.ts] *)

Inductive ReorderStatus := SAFE | WARNING | CRITICAL.

Record InventoryItem := mkItem {
  id : jsstring;
  category : jsstring;
  brand : jsstring;
  productName : jsstring;
  barcode : jsstring;
  sku : jsstring;
  currentStock : Z;
  inProductionStock : Z;
  safetyStock : Z;
  reorderPoint : Z;
  dailySalesAvg : Q;
  currentWeekSales : Z;
  lastWeekSales : Z;
  leadTimeDays : Z;
  unitCost : Z;
  status : ReorderStatus;
  salesGrowth : Q;
  expectedStockOutDate : jsstring;
  suggestedOrderDate : jsstring;
  itemType : jsstring;
  isSeasonalFit : bool
}.

(** ** [analyzeSkuMetadata] *)

(** The object [{ type, leadTime, isSeasonalFit }] the decoder returns. *)
Record SkuMetadata := mkMeta {
  meta_type : jsstring;
  meta_leadTime : Z;
  meta_isSeasonalFit : bool
}.

Definition GENERAL : jsstring := lit "일반".
Definition PADDING : jsstring := lit "패딩".
Definition OUTER : jsstring := lit "아우터".

Definition outerCodes : list jsstring :=
  [lit "CT"; lit "JP"; lit "JK"; lit "WB"; lit "TJ"; lit "VT"; lit "AR"; lit "CD"].

Definition analyzeSkuMetadata (now : Date) (sku : jsstring) : SkuMetadata :=
  if (match sku with [] => true | _ => false end || (List.length sku <? 7)%nat)%bool
  then mkMeta GENERAL 14 true
  else
    let seasonCode := toUpperCase (substring 3 4 sku) in
    let subCategoryCode := toUpperCase (substring 5 7 sku) in
    let month := (getMonth now + 1)%Z in
    let currentSeasonCodes :=
      [lit "A"; lit "C"; lit "O"]
      ++ [if ((2 <=? month) && (month <=? 4))%Z then lit "S"
          else if ((5 <=? month) && (month <=? 7))%Z then lit "U"
          else if ((8 <=? month) && (month <=? 10))%Z then lit "F"
          else lit "W"] in
    let isSeasonalFit := includes currentSeasonCodes seasonCode in
    if (str_eqb subCategoryCode (lit "DW") || str_eqb subCategoryCode (lit "DV"))%bool
    then mkMeta PADDING 50 isSeasonalFit
    else if includes outerCodes subCategoryCode
    then mkMeta OUTER 35 isSeasonalFit
    else mkMeta GENERAL 21 isSeasonalFit.

(** ** [fetchInventoryData]: the tabular parser *)

(** The character loop over one line: [result] is the array of fields pushed
    so far, [current] the field being read, [inQuotes] the toggle. *)
Fixpoint parseLine_loop (result : list jsstring) (current : jsstring)
    (inQuotes : bool) (row : jsstring) : list jsstring :=
  match row with
  | [] => result ++ [trim current]
  | char :: rest =>
      if (char =? QUOTE)%N then parseLine_loop result current (negb inQuotes) rest
      else if ((char =? COMMA)%N && negb inQuotes)%bool
      then parseLine_loop (result ++ [trim current]) [] inQuotes rest
      else parseLine_loop result (current ++ [char]) inQuotes rest
  end.

Definition parseLine (row : jsstring) : list jsstring :=
  parseLine_loop [] [] false row.

(** [csvText.split('\n').map(...)]. *)
Definition parseRows (csvText : jsstring) : list (list jsstring) :=
  map parseLine (splitLines csvText).

(** ** [fetchInventoryData]: the record reconstructor *)

(** The three [let lastKnown...] variables the map callback closes over. *)
Record FillState := mkFill {
  lastKnownProductName : jsstring;
  lastKnownBrand : jsstring;
  lastKnownCategory : jsstring
}.

Definition initialFill : FillState := mkFill [] [] [].

(** [if (raw && raw !== '') held = raw]. *)
Definition hold (raw : option jsstring) (held : jsstring) : jsstring :=
  match raw with
  | Some (c :: r) => c :: r
  | _ => held
  end.

Definition UNKNOWN_PRODUCT : jsstring := lit "알 수 없는 상품".
Definition DEFAULT_CATEGORY : jsstring := lit "기타".
Definition DEFAULT_BRAND : jsstring := lit "브랜드".
Definition STABLE : jsstring := lit "안정적".
Definition NOT_APPLICABLE : jsstring := lit "해당없음".

(** [currentWeekSales / 7], the local [dailySales]. *)
Definition dailySalesOf (currentWeekSales : Z) : Q := inject_Z currentWeekSales / 7.

(** [dailySales > 0 ? Math.floor(currentStock / dailySales) : 365]. *)
Definition daysToStockOutOf (currentStock : Z) (dailySales : Q) : Z :=
  if negb (Qle_bool dailySales 0)
  then floor (inject_Z currentStock / dailySales)
  else 365%Z.

(** The week over week growth of the sales, in percent. *)
Definition salesGrowthOf (currentWeekSales lastWeekSales : Z) : Q :=
  if (lastWeekSales =? 0)%Z
  then (if (0 <? currentWeekSales)%Z then 100 else 0)
  else (inject_Z (currentWeekSales - lastWeekSales) / inject_Z lastWeekSales) * 100.

(** The body of the map callback for one row: the new item and the fill
    state left for the next row. *)
Definition processRow (now : Date) (st : FillState) (idx : nat)
    (row : list jsstring) : InventoryItem * FillState :=
  let rawProductName := nth_error row 12 in
  let lastKnownProductName' := hold rawProductName (lastKnownProductName st) in
  let rawBrand := nth_error row 2 in
  let lastKnownBrand' := hold rawBrand (lastKnownBrand st) in
  let rawCategory := nth_error row 1 in
  let lastKnownCategory' := hold rawCategory (lastKnownCategory st) in
  let sku := orStr (nth_error row 3) [] in
  let meta := analyzeSkuMetadata now sku in
  let dynamicLeadTime := meta_leadTime meta in
  let currentStock := orNum (parseInt (nth_error row 33)) 0 in
  let inProductionStock := orNum (parseInt (nth_error row 34)) 0 in
  let reorderPoint := orNum (parseInt (nth_error row 7)) 10 in
  let currentWeekSales := orNum (parseInt (nth_error row 22)) 0 in
  let lastWeekSales := orNum (parseInt (nth_error row 21)) 0 in
  let dailySales := dailySalesOf currentWeekSales in
  let salesGrowth := salesGrowthOf currentWeekSales lastWeekSales in
  let daysToStockOut := daysToStockOutOf currentStock dailySales in
  let today := now in
  let stockOutDate := setDate now (getDate today + daysToStockOut)%Z in
  let suggestedOrder := setDate stockOutDate (getDate stockOutDate - dynamicLeadTime)%Z in
  let status :=
    if (Qle_bool (inject_Z currentStock) (inject_Z reorderPoint * (1 # 2))
        || (daysToStockOut <=? 10)%Z)%bool then CRITICAL
    else if ((currentStock <=? reorderPoint)%Z || (daysToStockOut <=? 20)%Z)%bool
    then WARNING
    else SAFE in
  ({| id := lit "row-" ++ natToString idx;
      category := orStr (Some lastKnownCategory') DEFAULT_CATEGORY;
      brand := orStr (Some lastKnownBrand') DEFAULT_BRAND;
      productName := orStr (Some lastKnownProductName') UNKNOWN_PRODUCT;
      barcode := orStr (nth_error row 4) (lit "N/A");
      sku := sku;
      currentStock := currentStock;
      inProductionStock := inProductionStock;
      safetyStock := orNum (parseInt (nth_error row 6)) 5;
      reorderPoint := reorderPoint;
      dailySalesAvg := parseFloat_toFixed1 dailySales;
      currentWeekSales := currentWeekSales;
      lastWeekSales := lastWeekSales;
      leadTimeDays := dynamicLeadTime;
      unitCost := orNum (parseInt (nth_error row 10)) 0;
      status := status;
      salesGrowth := salesGrowth;
      expectedStockOutDate :=
        if (360 <? daysToStockOut)%Z then STABLE else toLocaleDateString stockOutDate;
      suggestedOrderDate :=
        if (360 <? daysToStockOut)%Z then NOT_APPLICABLE
        else toLocaleDateString suggestedOrder;
      itemType := meta_type meta;
      isSeasonalFit := meta_isSeasonalFit meta |},
   mkFill lastKnownProductName' lastKnownBrand' lastKnownCategory').

(** [.map((row, idx) => ...)] over the data rows, the fill state carried from
    one call of the callback to the next. *)
Fixpoint mapRows (now : Date) (st : FillState) (idx : nat)
    (rows : list (list jsstring)) : list InventoryItem :=
  match rows with
  | [] => []
  | row :: rest =>
      let '(item, st') := processRow now st idx row in
      item :: mapRows now st' (S idx) rest
  end.

(** [rows.slice(1).filter(row => row.length > 33)]. *)
Definition dataRows (rows : list (list jsstring)) : list (list jsstring) :=
  filter (fun row => (33 <? List.length row)%nat) (tl rows).

(** The items before the last filter. *)
Definition reconstruct (now : Date) (rows : list (list jsstring)) : list InventoryItem :=
  mapRows now initialFill 0 (dataRows rows).

(** [.filter(item => item.productName !== UNKNOWN_PRODUCT)]. *)
Definition hasProductName (item : InventoryItem) : bool :=
  negb (str_eqb (productName item) UNKNOWN_PRODUCT).

(** The [try] block of [fetchInventoryData] from the text of the response on. *)
Definition itemsOfCsv (now : Date) (csvText : jsstring) : list InventoryItem :=
  filter hasProductName (reconstruct now (parseRows csvText)).

(** ** [generateMockData] *)

(** [Math.random()]: the next draw of the generator, a number of [0, 1), and
    the generator moved on. *)
Definition random (rnd : nat -> Q) (k : nat) : Q * nat := (rnd k, S k).

(** [x || 1] for a number [x]. *)
Definition orOne (x : Q) : Q := if Qeq_bool x 0 then 1 else x.

(** The callback of [Array.from({ length: 50 }).map((_, i) => ...)], run with
    the generator at draw [k]. *)
Definition mockItem (now : Date) (rnd : nat -> Q) (k : nat) (i : nat)
    : InventoryItem * nat :=
  let isPadding := (i mod 8 =? 0)%nat in
  let sku := if isPadding then lit "FBEWODW00" ++ natToString i ++ lit "BK00M"
             else lit "FBESUTS00" ++ natToString i ++ lit "WH00L" in
  let meta := analyzeSkuMetadata now sku in
  let leadTime := meta_leadTime meta in
  let '(r1, k1) := random rnd k in
  let cSales := (floor (r1 * 200) + 20)%Z in
  let '(r2, k2) := random rnd k1 in
  let lSales := floor (inject_Z cSales * ((6 # 10) + r2 * (8 # 10))) in
  let '(r3, k3) := random rnd k2 in
  let stock := floor (r3 * 100) in
  let '(r4, k4) := random rnd k3 in
  let inProd := floor (r4 * 40) in
  let dailySales := inject_Z cSales / 7 in
  let daysToStockOut := floor (inject_Z stock / orOne dailySales) in
  let d1 := setDate now (getDate now + daysToStockOut)%Z in
  let d3 := setDate d1 (getDate d1 - leadTime)%Z in
  ({| id := lit "mock-" ++ natToString i;
      category := if isPadding then lit "아우터" else lit "상의";
      brand := lit "FILLUMINATE";
      productName :=
        if isPadding
        then lit "필루미네이트 프리미엄 덕다운 패딩 " ++ natToString i
        else lit "필루미네이트 베이직 티셔츠 " ++ natToString i;
      barcode := lit "880912345" ++ natToString i;
      sku := sku;
      currentStock := stock;
      inProductionStock := inProd;
      safetyStock := 10;
      reorderPoint := 40;
      dailySalesAvg := parseFloat_toFixed1 dailySales;
      currentWeekSales := cSales;
      lastWeekSales := lSales;
      leadTimeDays := leadTime;
      unitCost := 45000;
      status := if (stock <? 25)%Z then CRITICAL
                else if (stock <? 50)%Z then WARNING else SAFE;
      salesGrowth :=
        if (lSales =? 0)%Z then 100
        else (inject_Z (cSales - lSales) / inject_Z lSales) * 100;
      expectedStockOutDate :=
        if (360 <? daysToStockOut)%Z then STABLE else toLocaleDateString d1;
      suggestedOrderDate :=
        if (360 <? daysToStockOut)%Z then NOT_APPLICABLE else toLocaleDateString d3;
      itemType := meta_type meta;
      isSeasonalFit := meta_isSeasonalFit meta |},
   k4).

(** The callback run for [i], [i + 1], ... ([n] times). *)
Fixpoint mockItems (now : Date) (rnd : nat -> Q) (k : nat) (i : nat) (n : nat)
    : list InventoryItem :=
  match n with
  | O => []
  | S n' =>
      let '(item, k') := mockItem now rnd k i in
      item :: mockItems now rnd k' (S i) n'
  end.

Definition generateMockData (now : Date) (rnd : nat -> Q) : list InventoryItem :=
  mockItems now rnd 0 0 50.

(** ** [fetchInventoryData] as a whole *)

(** What [fetch] and [response.text()] come back with: a rejected promise, a
    response that is not [ok], or the text of the sheet. *)
Inductive Response :=
| NetworkError
| NotOk
| Body (csvText : jsstring).

(** Every failure inside [try] ends in the [catch], which returns the mock
    data. *)
Definition fetchInventoryData (now : Date) (rnd : nat -> Q) (resp : Response)
    : list InventoryItem :=
  match resp with
  | Body csvText => itemsOfCsv now csvText
  | _ => generateMockData now rnd
  end.

(** ** [Array.prototype.sort] and [slice] *)

(** [arr.sort(compare)] is a stable sort; for a comparator that orders the
    elements consistently its result is the one arrangement in that order
    that keeps equal elements as they stood.  It is given here by insertion
    from the right; [cmpLe a b] stands for [compare(a, b) <= 0]. *)
Section ArraySort.

Variable A : Type.
Variable cmpLe : A -> A -> bool.

Fixpoint insertSorted (x : A) (l : list A) : list A :=
  match l with
  | [] => [x]
  | y :: rest => if cmpLe x y then x :: l else y :: insertSorted x rest
  end.

Definition sort (l : list A) : list A := fold_right insertSorted [] l.

End ArraySort.

Arguments insertSorted {A} cmpLe x l.
Arguments sort {A} cmpLe l.

(** ** [App.tsx]: the ordered marks and the derived views *)

(** The updater of [toggleOrder(id)]:
    [prev.includes(id) ? prev.filter(i => i !== id) : [...prev, id]]. *)
Definition toggleOrder (id : jsstring) (prev : list jsstring) : list jsstring :=
  if includes prev id
  then filter (fun i => negb (str_eqb i id)) prev
  else prev ++ [id].

(** [a.status === b] on the enumeration. *)
Definition status_eqb (a b : ReorderStatus) : bool :=
  match a, b with
  | SAFE, SAFE | WARNING, WARNING | CRITICAL, CRITICAL => true
  | _, _ => false
  end.

(** [topSellers]: the inventory sorted by [b.currentWeekSales -
    a.currentWeekSales], the first 20. *)
Definition bySalesDesc (a b : InventoryItem) : bool :=
  (currentWeekSales b - currentWeekSales a <=? 0)%Z.

Definition topSellers (inventory : list InventoryItem) : list InventoryItem :=
  firstn 20 (sort bySalesDesc inventory).

(** [urgentReorders].  [Math.pow(x, 1.5)] is taken as a function [pow15]
    from the weekly sales to the number it returns. *)
Section UrgentReorders.

Variable pow15 : Z -> Q.

Definition urgencyScore (a : InventoryItem) : Q :=
  (pow15 (currentWeekSales a) / (inject_Z (currentStock a) + (1 # 2)))
  * (if isSeasonalFit a then 3 # 2 else 1).

Definition byScoreDesc (a b : InventoryItem) : bool :=
  Qle_bool (urgencyScore b - urgencyScore a) 0.

Definition isUrgentCandidate (orderedItems : list jsstring) (item : InventoryItem)
    : bool :=
  ((0 <? currentWeekSales item)%Z && isSeasonalFit item
   && negb (includes orderedItems (id item)))%bool.

Definition urgentReorders (inventory : list InventoryItem)
    (orderedItems : list jsstring) : list InventoryItem :=
  firstn 20 (sort byScoreDesc (filter (isUrgentCandidate orderedItems) inventory)).

End UrgentReorders.

(** [stats]. *)
Record Stats := mkStats {
  total : nat;
  critical : nat;
  totalWeeklySales : Z;
  orderedCount : nat
}.

Definition isPendingCritical (orderedItems : list jsstring) (i : InventoryItem)
    : bool :=
  (status_eqb (status i) CRITICAL && negb (includes orderedItems (id i)))%bool.

Definition stats (inventory : list InventoryItem) (orderedItems : list jsstring)
    : Stats :=
  {| total := List.length inventory;
     critical := List.length (filter (isPendingCritical orderedItems) inventory);
     totalWeeklySales :=
       fold_left (fun acc i => (acc + currentWeekSales i)%Z) inventory 0%Z;
     orderedCount := List.length orderedItems |}.

(** ** [geminiService.ts]: the records handed to the recommendation service *)

(** [items.filter(i => i.status === 'Critical' || i.salesGrowth > 30)
    .slice(0, 10)]. *)
Definition isAnalysisTarget (i : InventoryItem) : bool :=
  (status_eqb (status i) CRITICAL || negb (Qle_bool (salesGrowth i) 30))%bool.


(** ** The properties, in the words of the specification *)

(** *** Status and horizon *)

(** The forecast stock-out horizon of an item: the local [daysToStockOut] of
    the pass that built it. *)
Definition horizon (item : InventoryItem) : Z :=
  daysToStockOutOf (currentStock item) (dailySalesOf (currentWeekSales item)).





(** *** Numeric columns *)



(** A number read from column [raw] with the given fallback: the fallback
    when the column is absent, does not parse or parses to zero, the parsed
    value otherwise. *)
Definition parsedOr (raw : option jsstring) (fallback v : Z) : Prop :=
  (raw = None -> v = fallback)
  /\ (parseInt raw = None -> v = fallback)
  /\ (parseInt raw = Some 0%Z -> v = fallback)
  /\ (forall n, parseInt raw = Some n -> n <> 0%Z -> v = n).

(** The code unit of a decimal digit. *)
Definition digitChar (v : Z) : char := Z.to_N (48 + v).

(** The digits of a decimal numeral of the standard library, most significant
    first. *)
Fixpoint digitsOfUint (d : Decimal.uint) : list Z :=
  match d with
  | Decimal.Nil => []
  | Decimal.D0 d => 0%Z :: digitsOfUint d
  | Decimal.D1 d => 1%Z :: digitsOfUint d
  | Decimal.D2 d => 2%Z :: digitsOfUint d
  | Decimal.D3 d => 3%Z :: digitsOfUint d
  | Decimal.D4 d => 4%Z :: digitsOfUint d
  | Decimal.D5 d => 5%Z :: digitsOfUint d
  | Decimal.D6 d => 6%Z :: digitsOfUint d
  | Decimal.D7 d => 7%Z :: digitsOfUint d
  | Decimal.D8 d => 8%Z :: digitsOfUint d
  | Decimal.D9 d => 9%Z :: digitsOfUint d
  end.

(** *** The tabular parser *)

(** The fields of a line joined with separators. *)
Fixpoint joinFields (fields : list jsstring) : jsstring :=
  match fields with
  | [] => []
  | [f] => f
  | f :: rest => f ++ COMMA :: joinFields rest
  end.

(** The number of separators of a line that stand outside quotes, the quote
    flag toggled by every quote character. *)
Fixpoint outsideCommas (inQuotes : bool) (row : jsstring) : nat :=
  match row with
  | [] => 0
  | c :: rest =>
      if (c =? QUOTE)%N then outsideCommas (negb inQuotes) rest
      else if ((c =? COMMA)%N && negb inQuotes)%bool
      then S (outsideCommas inQuotes rest)
      else outsideCommas inQuotes rest
  end.

(** A field as it is written in a line: stretches of plain text and stretches
    between a pair of quotes. *)
Inductive Piece :=
| Plain (s : jsstring)
| Quoted (s : jsstring).

Definition renderPiece (p : Piece) : jsstring :=
  match p with
  | Plain s => s
  | Quoted s => QUOTE :: s ++ [QUOTE]
  end.

Definition pieceText (p : Piece) : jsstring :=
  match p with
  | Plain s => s
  | Quoted s => s
  end.

(** Plain text holds neither quote nor separator, quoted text no quote. *)
Definition wellFormedPiece (p : Piece) : Prop :=
  match p with
  | Plain s => ~ In QUOTE s /\ ~ In COMMA s
  | Quoted s => ~ In QUOTE s
  end.

Definition renderField (f : list Piece) : jsstring :=
  List.concat (map renderPiece f).

Definition fieldText (f : list Piece) : jsstring :=
  List.concat (map pieceText f).

Definition renderLine (fields : list (list Piece)) : jsstring :=
  joinFields (map renderField fields).

(** *** Forward fill *)

(** A row has nothing in column [col]: the column is absent or empty. *)
Definition blankAt (row : list jsstring) (col : nat) : Prop :=
  nth_error row col = None \/ nth_error row col = Some [].

(** The fill state left by the callback after a run of rows. *)
Fixpoint fillAfter (now : Date) (st : FillState) (rows : list (list jsstring))
    : FillState :=
  match rows with
  | [] => st
  | row :: rest => fillAfter now (snd (processRow now st 0 row)) rest
  end.

(** The value held for one column after a run of rows. *)
Definition heldAfter (col : nat) (held : jsstring) (rows : list (list jsstring))
    : jsstring :=
  fold_left (fun h row => hold (nth_error row col) h) rows held.

(** A text with a code unit that is not white space. *)
Definition nonBlank (s : jsstring) : Prop :=
  exists c, In c s /\ isWhiteSpace c = false.

(** ** Sample inputs *)

(** A data line of 35 columns with the given category, brand, sku, reorder
    point, product name, last and current week sales and stock. *)
Definition sampleFields (cat br sk rp name lws cws stock : string) : list jsstring :=
  [lit "1"; lit cat; lit br; lit sk; lit "8809"; []; lit "5"; lit rp; []; [];
   lit "1000"; []; lit name; []; []; []; []; []; []; []; [];
   lit lws; lit cws; []; []; []; []; []; []; []; []; []; [];
   lit stock; lit "0"].

(** A sheet: a header line and the given data lines. *)
Definition sampleCsv (lines : list (list jsstring)) : jsstring :=
  lit "header" ++ List.concat (map (fun l => LF :: joinFields l) lines).

(** 2 November 2026. *)
Definition sampleToday : Date := 20759%Z.

(** A generator whose every draw is the same number. *)
Definition constRnd (q : Q) : nat -> Q := fun _ => q.


(** One data line with a stock of -5. *)
Definition negativeStockCsv : jsstring :=
  sampleCsv [sampleFields "c" "b" "FBEWODW001BK00M" "40" "n" "1" "1" "-5"].

(** One data line whose reorder point column reads 0. *)
Definition zeroReorderPointCsv : jsstring :=
  sampleCsv [sampleFields "c" "b" "FBEWODW001BK00M" "0" "n" "7" "7" "100"].

(** One data line with a stock of 40 equal to its reorder point and weekly
    sales of 7. *)
Definition boundaryCsv : jsstring :=
  sampleCsv [sampleFields "c" "b" "FBEWODW001BK00M" "40" "n" "7" "7" "40"].

(** One data line with weekly sales of 1. *)
Definition oneSaleCsv : jsstring :=
  sampleCsv [sampleFields "c" "b" "FBEWODW001BK00M" "40" "n" "1" "1" "10"].

(** A sheet of three data lines: the first names category, brand and product,
    the other two leave them empty. *)
Definition mergedCellsCsv : jsstring :=
  sampleCsv [sampleFields "outer" "brandA" "FBEWODW001BK00M" "40" "coat" "7" "7" "40";
             sampleFields EmptyString EmptyString "FBEWODW002BK00M" "40" EmptyString "7" "7" "40";
             sampleFields EmptyString EmptyString "FBEWODW003BK00M" "40" EmptyString "7" "7" "40"].

(** A sheet whose first data line has no product name and whose second has. *)
Definition lateNameCsv : jsstring :=
  sampleCsv [sampleFields "outer" "brandA" "FBEWODW001BK00M" "40" EmptyString "7" "7" "40";
             sampleFields EmptyString EmptyString "FBEWODW002BK00M" "40" "coat" "7" "7" "40"].

(** The line of three columns whose second is Acme, Inc between quotes. *)
Definition acmeLine : jsstring :=
  lit "1," ++ QUOTE :: lit "Acme, Inc" ++ QUOTE :: lit ",x".

(** The line of six code units: quote, a, quote, quote, b, quote (a doubled
    quote inside quotes). *)
Definition doubledQuoteLine : jsstring :=
  QUOTE :: lit "a" ++ QUOTE :: QUOTE :: lit "b" ++ [QUOTE].

(** The fields 1 (plain), Acme, Inc (quoted) and x (plain, with blanks around
    it). *)
Definition acmeFields : list (list Piece) :=
  [[Plain (lit "1")]; [Quoted (lit "Acme, Inc")]; [Plain (lit " x ")]].

(** *** The derived views *)

(** The items that sold [k] this week, in the order of the list. *)
Definition soldExactly (k : Z) (l : list InventoryItem) : list InventoryItem :=
  filter (fun i => (currentWeekSales i =? k)%Z) l.

(** An approximation of [Math.pow(x, 1.5)] for the examples: the weekly sales
    times the integer part of their square root. *)
Definition samplePow15 (x : Z) : Q := inject_Z (x * Z.sqrt x).

(** The items read from the sheet of three merged lines. *)
Definition sampleInventory : list InventoryItem :=
  fetchInventoryData sampleToday (constRnd 0) (Body mergedCellsCsv).

(** *** The sheet as text *)

(** The lines of a sheet joined with line feeds. *)
Fixpoint joinLines (lines : list jsstring) : jsstring :=
  match lines with
  | [] => []
  | [l] => l
  | l :: rest => l ++ LF :: joinLines rest
  end.

(** The number of line feeds of a text. *)
Definition lineFeeds (s : jsstring) : nat :=
  List.length (filter (fun c => (c =? LF)%N) s).

(** A field that can be written as it is: no quote, separator or line feed. *)
Definition simpleField (f : jsstring) : Prop :=
  ~ In QUOTE f /\ ~ In COMMA f /\ ~ In LF f.

(** * Proofs *)

(** ** From the output back to the rows *)

Lemma mapRows_In now rows : forall st idx item,
  In item (mapRows now st idx rows) ->
  exists st' idx' row, In row rows /\ item = fst (processRow now st' idx' row).
Proof.
  induction rows as [|row rest IH]; intros st idx item Hin; [destruct Hin|].
  cbn [mapRows] in Hin.
  destruct (processRow now st idx row) as [it st1] eqn:E.
  destruct Hin as [<-|Hin].
  - exists st, idx, row. split; [now left|]. now rewrite E.
  - destruct (IH _ _ _ Hin) as (st' & idx' & row' & Hr & ->).
    exists st', idx', row'. split; [now right|reflexivity].
Qed.

Lemma dataRows_In rows row :
  In row (dataRows rows) -> (33 < List.length row)%nat.
Proof.
  unfold dataRows. intros H. apply filter_In in H as [_ H].
  now apply Nat.ltb_lt.
Qed.

Lemma fetch_body_In now rnd csvText item :
  In item (fetchInventoryData now rnd (Body csvText)) ->
  exists st idx row,
    In row (dataRows (parseRows csvText))
    /\ item = fst (processRow now st idx row).
Proof.
  cbn [fetchInventoryData]. unfold itemsOfCsv, reconstruct. intros H.
  apply filter_In in H as [H _]. now apply mapRows_In in H.
Qed.

(** ** C1: the status thresholds *)

Lemma processRow_status now st idx row :
  let item := fst (processRow now st idx row) in
  status item =
    if (Qle_bool (inject_Z (currentStock item)) (inject_Z (reorderPoint item) * (1 # 2))
        || (horizon item <=? 10)%Z)%bool then CRITICAL
    else if ((currentStock item <=? reorderPoint item)%Z
             || (horizon item <=? 20)%Z)%bool then WARNING
    else SAFE.
Proof. reflexivity. Qed.




(** The first item of a concrete output, named [item]. *)
Ltac first_item items item Hin :=
  let v := eval vm_compute in (hd_error items) in
  match v with
  | Some ?x => pose (item := x)
  end;
  assert (Hin : In item items) by (vm_compute; left; reflexivity).


(** ** [trim] *)

Lemma trimStart_head s c r : trimStart s = c :: r -> isWhiteSpace c = false.
Proof.
  induction s as [|a s IH]; cbn [trimStart]; [discriminate|].
  destruct (isWhiteSpace a) eqn:E; [exact IH|].
  now intros [= <- _].
Qed.

Lemma trimStart_fixed s :
  match s with c :: _ => isWhiteSpace c = false | [] => True end ->
  trimStart s = s.
Proof. destruct s as [|c r]; [reflexivity|]. cbn [trimStart]. now intros ->. Qed.

Lemma trimStart_idem s : trimStart (trimStart s) = trimStart s.
Proof.
  apply trimStart_fixed.
  destruct (trimStart s) as [|c r] eqn:E; [exact I|].
  exact (trimStart_head _ _ _ E).
Qed.

Lemma trimStart_suffix s : exists p, s = p ++ trimStart s.
Proof.
  induction s as [|a s [p IH]]; [now exists []|].
  cbn [trimStart]. destruct (isWhiteSpace a).
  - exists (a :: p). cbn. now f_equal.
  - now exists [].
Qed.

(** A trimmed text that is not empty starts with a code unit that is not
    white space. *)
Lemma trim_head s c r : trim s = c :: r -> isWhiteSpace c = false.
Proof.
  unfold trim, trimEnd. intros H.
  destruct (trimStart_suffix (rev (trimStart s))) as [p Hp].
  apply (f_equal (@rev char)) in Hp.
  rewrite rev_involutive, rev_app_distr, H in Hp.
  cbn [app] in Hp. exact (trimStart_head _ _ _ Hp).
Qed.

Lemma trim_idem s : trim (trim s) = trim s.
Proof.
  assert (H1 : trimStart (trim s) = trim s).
  { apply trimStart_fixed. destruct (trim s) as [|c r] eqn:E; [exact I|].
    exact (trim_head _ _ _ E). }
  unfold trim at 1. rewrite H1. unfold trim, trimEnd.
  now rewrite rev_involutive, trimStart_idem.
Qed.

(** ** [parseInt] *)





(** An absent column is read as the text "undefined", which is no number. *)
Lemma parseInt_undefined : parseInt None = None.
Proof. reflexivity. Qed.

Lemma parseInt_empty : parseInt (Some []) = None.
Proof. reflexivity. Qed.





Lemma orNum_parsedOr raw fallback : parsedOr raw fallback (orNum (parseInt raw) fallback).
Proof.
  repeat split.
  - intros ->. reflexivity.
  - intros ->. reflexivity.
  - intros ->. reflexivity.
  - intros n -> Hn. cbn [orNum]. now destruct (Z.eqb_spec n 0).
Qed.

Lemma mockItems_In now rnd n : forall k i item,
  In item (mockItems now rnd k i n) ->
  exists k' i', item = fst (mockItem now rnd k' i').
Proof.
  induction n as [|n IH]; intros k i item Hin; [destruct Hin|].
  cbn [mockItems] in Hin.
  destruct (mockItem now rnd k i) as [it k1] eqn:E.
  destruct Hin as [<-|Hin].
  - exists k, i. now rewrite E.
  - exact (IH _ _ _ Hin).
Qed.

(** ** [parseInt] on decimal numerals *)

Lemma digit_cases v : (0 <= v <= 9)%Z ->
  v = 0%Z \/ v = 1%Z \/ v = 2%Z \/ v = 3%Z \/ v = 4%Z \/ v = 5%Z \/ v = 6%Z
  \/ v = 7%Z \/ v = 8%Z \/ v = 9%Z.
Proof. lia. Qed.

Ltac each_digit H :=
  apply digit_cases in H;
  repeat (destruct H as [H|H]; [subst|]); subst.

Lemma digitsPrefix_digits ds :
  Forall (fun v => 0 <= v <= 9)%Z ds ->
  digitsPrefix 10 (map digitChar ds) = ds.
Proof.
  induction 1 as [|v ds Hv _ IH]; [reflexivity|].
  cbn [map digitsPrefix].
  replace (digitVal 10 (digitChar v)) with (Some v)
    by (each_digit Hv; reflexivity).
  now rewrite IH.
Qed.

(** A text of decimal digits parses to its value. *)
Lemma parseInt_digits ds :
  ds <> [] -> Forall (fun v => 0 <= v <= 9)%Z ds ->
  parseInt (Some (map digitChar ds)) = Some (mathInt 10 ds).
Proof.
  intros Hne Hall. destruct ds as [|v ds]; [congruence|].
  inversion Hall as [|? ? Hv Hds]; subst.
  pose proof (digitsPrefix_digits (v :: ds) Hall) as Hp.
  unfold parseInt. cbn [map] in *.
  assert (E1 : trimStart (digitChar v :: map digitChar ds)
               = digitChar v :: map digitChar ds).
  { apply trimStart_fixed. each_digit Hv; reflexivity. }
  rewrite E1.
  assert (E2 : dropSign (digitChar v :: map digitChar ds)
               = digitChar v :: map digitChar ds)
    by (each_digit Hv; reflexivity).
  assert (E3 : signOf (digitChar v :: map digitChar ds) = 1%Z)
    by (each_digit Hv; reflexivity).
  assert (E4 : radixOf (digitChar v :: map digitChar ds)
               = (10%Z, digitChar v :: map digitChar ds)).
  { destruct ds as [|w ds]; [reflexivity|].
    inversion Hds as [|? ? Hw _]; subst. cbn [map radixOf].
    replace ((digitChar w =? 120)%N || (digitChar w =? 88)%N)%bool with false
      by (each_digit Hw; reflexivity).
    now rewrite andb_false_r. }
  rewrite E2, E3, E4, Hp. f_equal; lia.
Qed.

(** A minus sign before the digits gives the opposite value. *)
Lemma parseInt_minus_digits ds :
  ds <> [] -> Forall (fun v => 0 <= v <= 9)%Z ds ->
  parseInt (Some (45%N :: map digitChar ds)) = Some (- mathInt 10 ds)%Z.
Proof.
  intros Hne Hall. destruct ds as [|v ds]; [congruence|].
  inversion Hall as [|? ? Hv Hds]; subst.
  pose proof (digitsPrefix_digits (v :: ds) Hall) as Hp.
  unfold parseInt. cbn [map] in *.
  change (trimStart (45%N :: digitChar v :: map digitChar ds))
    with (45%N :: digitChar v :: map digitChar ds).
  cbn [dropSign signOf]. change (45 =? 45)%N with true.
  change ((45 =? 43)%N || true)%bool with true. cbv iota.
  assert (E4 : radixOf (digitChar v :: map digitChar ds)
               = (10%Z, digitChar v :: map digitChar ds)).
  { destruct ds as [|w ds]; [reflexivity|].
    inversion Hds as [|? ? Hw _]; subst. cbn [map radixOf].
    replace ((digitChar w =? 120)%N || (digitChar w =? 88)%N)%bool with false
      by (each_digit Hw; reflexivity).
    now rewrite andb_false_r. }
  rewrite E4, Hp. f_equal; lia.
Qed.

Lemma digitsOfUint_range d : Forall (fun v => 0 <= v <= 9)%Z (digitsOfUint d).
Proof. induction d; cbn [digitsOfUint]; constructor; trivial; lia. Qed.

Lemma ofString_uint d :
  ofString (NilEmpty.string_of_uint d) = map digitChar (digitsOfUint d).
Proof.
  unfold ofString, bytes.
  induction d; cbn [NilEmpty.string_of_uint list_ascii_of_string map digitsOfUint];
    [reflexivity|..]; now rewrite IHd.
Qed.

Lemma mathInt_uint d : forall acc,
  fold_left (fun a v => a * 10 + v)%Z (digitsOfUint d) (Z.of_nat acc)
  = Z.of_nat (Nat.of_uint_acc d acc).
Proof.
  induction d; intros acc; cbn [digitsOfUint fold_left Nat.of_uint_acc];
    [reflexivity|..]; rewrite <- IHd; f_equal; rewrite Nat.tail_mul_spec; lia.
Qed.

Lemma natToString_digits n :
  natToString n = map digitChar (digitsOfUint (Nat.to_uint n))
  /\ digitsOfUint (Nat.to_uint n) <> []
  /\ mathInt 10 (digitsOfUint (Nat.to_uint n)) = Z.of_nat n.
Proof.
  assert (Hnn : Nat.to_uint n <> Decimal.Nil).
  { rewrite <- (DecimalNat.Unsigned.of_to n) at 1.
    rewrite DecimalNat.Unsigned.to_of. apply DecimalFacts.unorm_nonnil. }
  repeat split.
  - unfold natToString. rewrite <- ofString_uint.
    destruct (Nat.to_uint n); [congruence|..]; reflexivity.
  - destruct (Nat.to_uint n); [congruence|..]; discriminate.
  - unfold mathInt.
    etransitivity; [exact (mathInt_uint (Nat.to_uint n) 0)|].
    f_equal. apply DecimalNat.Unsigned.of_to.
Qed.

(** A column that holds the decimal numeral of [n] parses to [n], and with a
    minus sign before it to [- n]. *)
Lemma parseInt_natToString n :
  parseInt (Some (natToString n)) = Some (Z.of_nat n)
  /\ parseInt (Some (45%N :: natToString n)) = Some (- Z.of_nat n)%Z.
Proof.
  destruct (natToString_digits n) as (E & Hne & Hv).
  rewrite E, <- Hv. split.
  - apply parseInt_digits; [exact Hne|apply digitsOfUint_range].
  - apply parseInt_minus_digits; [exact Hne|apply digitsOfUint_range].
Qed.

(** ** C2: the sign of the counts *)




(** The same for every row: a stock column that holds a minus sign and the
    numeral of a positive [n] gives the stock [- n]. *)
Lemma negative_numeral_kept now st idx (row : list jsstring) n :
  nth_error row 33 = Some (45%N :: natToString (S n)) ->
  currentStock (fst (processRow now st idx row)) = (- Z.of_nat (S n))%Z.
Proof.
  intros H. unfold processRow. cbn [fst currentStock].
  rewrite H, (proj2 (parseInt_natToString (S n))). cbn [orNum].
  destruct (Z.eqb_spec (- Z.of_nat (S n)) 0); [lia|reflexivity].
Qed.

(** ** C3: the stored daily average *)

Lemma toFixed1_close x : Qabs (parseFloat_toFixed1 x - x) <= 1 # 20.
Proof.
  apply Qabs_Qle_condition.
  unfold parseFloat_toFixed1, toFixed1_tenths.
  destruct (Qle_bool 0 x) eqn:E.
  - pose proof (Qfloor_le (x * 10 + (1 # 2))) as H1.
    pose proof (Qlt_floor (x * 10 + (1 # 2))) as H2.
    rewrite inject_Z_plus in H2.
    set (n := inject_Z (Qfloor (x * 10 + (1 # 2)))) in *.
    clearbody n. change (inject_Z 1) with 1 in H2.
    unfold Qdiv. change (/ 10) with (1 # 10). split; lra.
  - pose proof (Qfloor_le (- x * 10 + (1 # 2))) as H1.
    pose proof (Qlt_floor (- x * 10 + (1 # 2))) as H2.
    rewrite inject_Z_plus in H2. rewrite inject_Z_opp.
    set (n := inject_Z (Qfloor (- x * 10 + (1 # 2)))) in *.
    clearbody n. change (inject_Z 1) with 1 in H2.
    unfold Qdiv. change (/ 10) with (1 # 10). split; lra.
Qed.

(** C3, as the service has it. The stored daily average is the weekly sales
    divided by 7 and rounded to one decimal: a whole number of tenths at most
    one twentieth away from [currentWeekSales / 7]. This holds for the mock
    records too. *)
Theorem dailySalesAvg_rounded now rnd resp item :
  In item (fetchInventoryData now rnd resp) ->
  (exists n : Z, dailySalesAvg item == inject_Z n / 10)
  /\ Qabs (dailySalesAvg item - inject_Z (currentWeekSales item) / 7) <= 1 # 20.
Proof.
  intros Hin.
  assert (H : dailySalesAvg item
              = parseFloat_toFixed1 (inject_Z (currentWeekSales item) / 7)).
  { destruct resp as [| |csvText].
    3: destruct (fetch_body_In _ _ _ _ Hin) as (st & idx & row & _ & ->);
       reflexivity.
    all: apply mockItems_In in Hin as (k & i & ->); reflexivity. }
  rewrite H. split; [|apply toFixed1_close].
  eexists. unfold parseFloat_toFixed1. reflexivity.
Qed.

Lemma dailySalesAvg_rounded_witness :
  exists item,
    In item (fetchInventoryData sampleToday (constRnd 0) (Body oneSaleCsv))
    /\ Qabs (dailySalesAvg item - inject_Z (currentWeekSales item) / 7) <= 1 # 20.
Proof.
  first_item (fetchInventoryData sampleToday (constRnd 0) (Body oneSaleCsv))
             item Hin.
  exists item. split; [exact Hin|].
  exact (proj2 (dailySalesAvg_rounded _ _ _ _ Hin)).
Defined.

(** C3, as the specification has it, fails: with weekly sales of 1 the stored
    average is 0.1, which is not 1/7. *)
Lemma dailySalesAvg_not_exact :
  exists item,
    In item (fetchInventoryData sampleToday (constRnd 0) (Body oneSaleCsv))
    /\ currentWeekSales item = 1%Z
    /\ dailySalesAvg item == 1 # 10
    /\ ~ dailySalesAvg item == inject_Z (currentWeekSales item) / 7.
Proof.
  first_item (fetchInventoryData sampleToday (constRnd 0) (Body oneSaleCsv))
             item Hin.
  exists item. split; [exact Hin|]. split; [reflexivity|].
  split; [reflexivity|]. intros H. vm_compute in H. discriminate.
Qed.

(** ** C4: the fallbacks of the numeric columns *)

(** C4, as the service has it. Each numeric field of a record is its fallback
    (0 for the counts and the cost, 5 for the safety stock, 10 for the reorder
    point) when its column is absent, does not parse or parses to zero, and
    the parsed value otherwise; the pass as a whole is a total function. *)
Theorem numeric_fallbacks now rnd csvText item :
  In item (fetchInventoryData now rnd (Body csvText)) ->
  exists st idx row,
    In row (dataRows (parseRows csvText))
    /\ item = fst (processRow now st idx row)
    /\ parsedOr (nth_error row 33) 0 (currentStock item)
    /\ parsedOr (nth_error row 34) 0 (inProductionStock item)
    /\ parsedOr (nth_error row 22) 0 (currentWeekSales item)
    /\ parsedOr (nth_error row 21) 0 (lastWeekSales item)
    /\ parsedOr (nth_error row 10) 0 (unitCost item)
    /\ parsedOr (nth_error row 6) 5 (safetyStock item)
    /\ parsedOr (nth_error row 7) 10 (reorderPoint item).
Proof.
  intros Hin.
  destruct (fetch_body_In _ _ _ _ Hin) as (st & idx & row & Hrow & ->).
  exists st, idx, row.
  split; [exact Hrow|]. split; [reflexivity|].
  repeat apply conj; apply orNum_parsedOr.
Qed.

Lemma numeric_fallbacks_witness :
  exists item,
    In item (fetchInventoryData sampleToday (constRnd 0) (Body zeroReorderPointCsv))
    /\ currentStock item = 100%Z /\ reorderPoint item = 10%Z.
Proof.
  first_item (fetchInventoryData sampleToday (constRnd 0) (Body zeroReorderPointCsv))
             item Hin.
  exists item. split; [exact Hin|].
  destruct (numeric_fallbacks _ _ _ _ Hin)
    as (st & idx & row & Hrow & Hit & (_ & _ & _ & Hs) & _ & _ & _ & _ & _
        & (_ & _ & Hr & _)).
  destruct Hrow as [<-|[]].
  split; [apply Hs; [reflexivity|discriminate]|apply Hr; reflexivity].
Defined.

(** C4, as the specification has it, fails: a reorder point column that reads
    0 parses, to 0, and the record carries the fallback 10 all the same. *)
Lemma zero_reorder_point_replaced :
  exists row item,
    dataRows (parseRows zeroReorderPointCsv) = [row]
    /\ fetchInventoryData sampleToday (constRnd 0) (Body zeroReorderPointCsv)
       = [item]
    /\ parseInt (nth_error row 7) = Some 0%Z
    /\ reorderPoint item = 10%Z.
Proof.
  eexists. eexists. repeat split.
Qed.

(** ** C5: what the status is a function of *)




(** ** C9: short product codes *)

(** C9. A product code of fewer than 7 code units, the empty one included,
    decodes to the general type, a lead time of 14 days and a seasonal fit,
    whatever the day; so does every row whose code column is that short or
    absent. *)
Theorem short_sku_generic now sku :
  (List.length sku < 7)%nat ->
  analyzeSkuMetadata now sku = mkMeta GENERAL 14 true
  /\ forall st idx row,
       orStr (nth_error row 3) [] = sku ->
       let item := fst (processRow now st idx row) in
       itemType item = GENERAL /\ leadTimeDays item = 14%Z
       /\ isSeasonalFit item = true.
Proof.
  intros Hlen.
  assert (H : analyzeSkuMetadata now sku = mkMeta GENERAL 14 true).
  { unfold analyzeSkuMetadata.
    apply Nat.ltb_lt in Hlen. rewrite Hlen, orb_true_r. reflexivity. }
  split; [exact H|].
  intros st idx row Hsku item. subst item.
  unfold processRow. cbn [fst itemType leadTimeDays isSeasonalFit].
  rewrite Hsku, H. repeat split.
Qed.

Lemma short_sku_generic_witness :
  analyzeSkuMetadata sampleToday (lit "FBEWOD") = mkMeta GENERAL 14 true.
Proof.
  apply (short_sku_generic sampleToday (lit "FBEWOD")). vm_compute. lia.
Defined.

(** ** Dates *)

Lemma MonthFromTime_range d : (0 <= MonthFromTime d <= 11)%Z.
Proof.
  unfold MonthFromTime.
  repeat match goal with
         | |- context [if ?b then _ else _] => destruct b
         end; lia.
Qed.



(** The year of a day is the one whose first day is the last not after it. *)
Lemma YearFromTime_spec d :
  (DayFromYear (YearFromTime d) <= d < DayFromYear (YearFromTime d + 1))%Z.
Proof.
  unfold YearFromTime.
  set (y := (1970 + d * 400 / 146097)%Z).
  assert (Hy : (DayFromYear (y - 1) <= d < DayFromYear (y + 2))%Z).
  { unfold DayFromYear. subst y. Z.div_mod_to_equations. lia. }
  destruct (Z.leb_spec (DayFromYear (y + 1)) d).
  - replace (y + 1 + 1)%Z with (y + 2)%Z by lia. lia.
  - destruct (Z.leb_spec (DayFromYear y) d).
    + lia.
    + replace (y - 1 + 1)%Z with y by lia. lia.
Qed.

(** A formatted date holds a full stop, which neither label does. *)
Lemma toLocaleDateString_stop d : In 46%N (toLocaleDateString d).
Proof.
  unfold toLocaleDateString. apply in_or_app. right.
  change (lit ". ") with [46%N; 32%N]. now left.
Qed.


(** ** C10: the stock-out forecast *)





(** The average the horizon divides by is the unrounded one: with a stock of
    10 and weekly sales of 1 the horizon is 70 days, where the stored average
    of 0.1 would give 100. *)
Lemma horizon_from_unrounded_average :
  exists item,
    In item (fetchInventoryData sampleToday (constRnd 0) (Body oneSaleCsv))
    /\ horizon item = 70%Z
    /\ floor (inject_Z (currentStock item) / dailySalesAvg item) = 100%Z.
Proof.
  first_item (fetchInventoryData sampleToday (constRnd 0) (Body oneSaleCsv))
             item Hin.
  exists item. split; [exact Hin|]. split; reflexivity.
Qed.

(** ** C6: the tabular parser *)

Lemma parseLine_loop_length row : forall result current inQuotes,
  List.length (parseLine_loop result current inQuotes row)
  = (List.length result + S (outsideCommas inQuotes row))%nat.
Proof.
  induction row as [|c rest IH]; intros result current inQuotes;
    cbn [parseLine_loop outsideCommas].
  - rewrite length_app. cbn. lia.
  - destruct (c =? QUOTE)%N; [apply IH|].
    destruct ((c =? COMMA)%N && negb inQuotes)%bool; rewrite IH;
      [rewrite length_app; cbn; lia|reflexivity].
Qed.

Lemma parseLine_loop_fields (P : jsstring -> Prop) row :
  (forall s, P (trim s)) ->
  forall result current inQuotes,
    Forall P result -> Forall P (parseLine_loop result current inQuotes row).
Proof.
  intros HP. induction row as [|c rest IH]; intros result current inQuotes Hres;
    cbn [parseLine_loop].
  - apply Forall_app. split; [exact Hres|]. constructor; [apply HP|constructor].
  - destruct (c =? QUOTE)%N; [now apply IH|].
    destruct ((c =? COMMA)%N && negb inQuotes)%bool; apply IH; trivial.
    apply Forall_app. split; [exact Hres|]. constructor; [apply HP|constructor].
Qed.

Lemma parseLine_trimmed row : Forall (fun f => trim f = f) (parseLine row).
Proof.
  apply parseLine_loop_fields; [apply trim_idem|constructor].
Qed.

Lemma loop_plain s : forall result current rest,
  ~ In QUOTE s -> ~ In COMMA s ->
  parseLine_loop result current false (s ++ rest)
  = parseLine_loop result (current ++ s) false rest.
Proof.
  induction s as [|c s IH]; intros result current rest Hq Hc.
  - now rewrite app_nil_r.
  - cbn [app parseLine_loop].
    destruct (N.eqb_spec c QUOTE) as [->|_]; [exfalso; apply Hq; now left|].
    destruct (N.eqb_spec c COMMA) as [->|_]; [exfalso; apply Hc; now left|].
    cbn [andb]. rewrite IH.
    + now rewrite <- app_assoc.
    + intros H; apply Hq; now right.
    + intros H; apply Hc; now right.
Qed.

Lemma loop_inside s : forall result current rest,
  ~ In QUOTE s ->
  parseLine_loop result current true (s ++ rest)
  = parseLine_loop result (current ++ s) true rest.
Proof.
  induction s as [|c s IH]; intros result current rest Hq.
  - now rewrite app_nil_r.
  - cbn [app parseLine_loop].
    destruct (N.eqb_spec c QUOTE) as [->|_]; [exfalso; apply Hq; now left|].
    cbn [negb]. rewrite andb_false_r. rewrite IH.
    + now rewrite <- app_assoc.
    + intros H; apply Hq; now right.
Qed.

Lemma loop_piece p result current rest :
  wellFormedPiece p ->
  parseLine_loop result current false (renderPiece p ++ rest)
  = parseLine_loop result (current ++ pieceText p) false rest.
Proof.
  destruct p as [s|s]; cbn [wellFormedPiece renderPiece pieceText].
  - intros [Hq Hc]. now apply loop_plain.
  - intros Hq. cbn [app parseLine_loop]. rewrite N.eqb_refl. cbn [negb].
    rewrite <- app_assoc, loop_inside by exact Hq.
    cbn [app parseLine_loop]. rewrite N.eqb_refl. reflexivity.
Qed.

Lemma loop_field f : forall result current rest,
  Forall wellFormedPiece f ->
  parseLine_loop result current false (renderField f ++ rest)
  = parseLine_loop result (current ++ fieldText f) false rest.
Proof.
  induction f as [|p f IH]; intros result current rest Hf.
  - cbn. now rewrite app_nil_r.
  - inversion Hf; subst. unfold renderField, fieldText. cbn [map List.concat].
    rewrite <- app_assoc, loop_piece by assumption.
    fold (renderField f). rewrite IH by assumption.
    fold (fieldText f). now rewrite <- app_assoc.
Qed.

Lemma renderLine_cons f g fields :
  renderLine (f :: g :: fields)
  = renderField f ++ COMMA :: renderLine (g :: fields).
Proof. reflexivity. Qed.

(** A line that goes on after its last field: the fields before the last are
    pushed, the text of the last is the field being read. *)
Lemma loop_line_rest fields : forall f result rest,
  Forall (Forall wellFormedPiece) (fields ++ [f]) ->
  parseLine_loop result [] false (renderLine (fields ++ [f]) ++ rest)
  = parseLine_loop (result ++ map (fun g => trim (fieldText g)) fields)
                   (fieldText f) false rest.
Proof.
  induction fields as [|g fields IH]; intros f result rest Hall;
    inversion Hall as [|? ? Hf Hrest]; subst.
  - cbn [app map]. rewrite app_nil_r.
    unfold renderLine. cbn [map joinFields].
    now rewrite loop_field by assumption.
  - assert (E : renderLine ((g :: fields) ++ [f])
                = renderField g ++ COMMA :: renderLine (fields ++ [f])).
    { cbn [app]. destruct fields; apply renderLine_cons. }
    rewrite E, <- app_assoc, loop_field by assumption.
    cbn [app parseLine_loop]. change (COMMA =? QUOTE)%N with false.
    rewrite N.eqb_refl. cbn [andb negb].
    rewrite IH by assumption. cbn [map app]. now rewrite <- app_assoc.
Qed.

Lemma loop_line fields f :
  Forall (Forall wellFormedPiece) (fields ++ [f]) ->
  parseLine (renderLine (fields ++ [f]))
  = map (fun g => trim (fieldText g)) (fields ++ [f]).
Proof.
  intros Hall. unfold parseLine.
  rewrite <- (app_nil_r (renderLine (fields ++ [f]))).
  rewrite loop_line_rest by assumption.
  cbn [parseLine_loop app]. now rewrite map_app.
Qed.

(** A quote that is never closed keeps the rest of the line in the last
    field. *)
Lemma loop_line_open fields f tail :
  Forall (Forall wellFormedPiece) (fields ++ [f]) ->
  ~ In QUOTE tail ->
  parseLine (renderLine (fields ++ [f]) ++ QUOTE :: tail)
  = map (fun g => trim (fieldText g)) fields ++ [trim (fieldText f ++ tail)].
Proof.
  intros Hall Htail. unfold parseLine.
  rewrite loop_line_rest by assumption.
  cbn [parseLine_loop app]. rewrite N.eqb_refl. cbn [negb].
  rewrite <- (app_nil_r tail) at 1.
  rewrite loop_inside by assumption. reflexivity.
Qed.

(** C6. Every line is split at exactly the separators that stand outside
    quotes (the flag toggled by each quote character), into fields that are
    trimmed, and every line gives a row. A line written as fields of plain
    and quoted stretches parses to the trimmed texts of those fields, a
    separator between quotes staying in its field, and a quote left open
    keeps the rest of the line in the last field; so the quoted field
    [Acme, Inc] comes out as one field, and a doubled quote is two toggles,
    not a quote character. *)
Theorem csv_line_parsing :
  (forall line,
     List.length (parseLine line) = S (outsideCommas false line)
     /\ Forall (fun f => trim f = f) (parseLine line))
  /\ (forall csvText,
        List.length (parseRows csvText) = List.length (splitLines csvText))
  /\ (forall fields,
        fields <> [] ->
        Forall (Forall wellFormedPiece) fields ->
        parseLine (renderLine fields)
        = map (fun f => trim (fieldText f)) fields)
  /\ (forall fields f tail,
        Forall (Forall wellFormedPiece) (fields ++ [f]) ->
        ~ In QUOTE tail ->
        parseLine (renderLine (fields ++ [f]) ++ QUOTE :: tail)
        = map (fun g => trim (fieldText g)) fields
          ++ [trim (fieldText f ++ tail)])
  /\ parseLine acmeLine = [lit "1"; lit "Acme, Inc"; lit "x"]
  /\ parseLine doubledQuoteLine = [lit "ab"].
Proof.
  split; [|split; [|split; [|split; [|split]]]].
  - intros line. split; [|apply parseLine_trimmed].
    unfold parseLine. now rewrite parseLine_loop_length.
  - intros csvText. unfold parseRows. apply length_map.
  - intros fields Hne Hall.
    destruct (exists_last Hne) as (fs & f & ->).
    now apply loop_line.
  - intros fields f tail. apply loop_line_open.
  - reflexivity.
  - reflexivity.
Qed.

Lemma csv_line_parsing_witness :
  parseLine (renderLine acmeFields) = [lit "1"; lit "Acme, Inc"; lit "x"].
Proof.
  destruct csv_line_parsing as (_ & _ & H & _).
  rewrite (H acmeFields).
  - reflexivity.
  - discriminate.
  - repeat constructor; intros Hin; vm_compute in Hin;
      repeat (destruct Hin as [Hin|Hin]; [discriminate|]); exact Hin.
Defined.

(** ** C7: forward fill *)

Lemma processRow_fill now st idx row :
  snd (processRow now st idx row)
  = mkFill (hold (nth_error row 12) (lastKnownProductName st))
           (hold (nth_error row 2) (lastKnownBrand st))
           (hold (nth_error row 1) (lastKnownCategory st)).
Proof. reflexivity. Qed.

Lemma fillAfter_held now rows : forall st,
  fillAfter now st rows
  = mkFill (heldAfter 12 (lastKnownProductName st) rows)
           (heldAfter 2 (lastKnownBrand st) rows)
           (heldAfter 1 (lastKnownCategory st) rows).
Proof.
  induction rows as [|row rest IH]; intros st; [now destruct st|].
  cbn [fillAfter]. rewrite IH, processRow_fill. reflexivity.
Qed.

Lemma mapRows_length now rows : forall st idx,
  List.length (mapRows now st idx rows) = List.length rows.
Proof.
  induction rows as [|row rest IH]; intros st idx; [reflexivity|].
  cbn [mapRows]. destruct (processRow now st idx row). cbn. now rewrite IH.
Qed.

(** The item at position [i] is the callback run on row [i], at index [i],
    in the fill state the rows before it have left. *)
Lemma mapRows_nth now rows : forall st idx i item,
  nth_error (mapRows now st idx rows) i = Some item ->
  exists row,
    nth_error rows i = Some row
    /\ item = fst (processRow now (fillAfter now st (firstn i rows)) (idx + i) row).
Proof.
  induction rows as [|row rest IH]; intros st idx i item H.
  - destruct i; discriminate.
  - cbn [mapRows] in H.
    destruct (processRow now st idx row) as [it st1] eqn:E.
    destruct i as [|i]; cbn [nth_error] in H.
    + injection H as <-. exists row. split; [reflexivity|].
      cbn [firstn fillAfter]. now rewrite Nat.add_0_r, E.
    + destruct (IH _ _ _ _ H) as (r & Hr & ->).
      exists r. split; [exact Hr|].
      cbn [firstn fillAfter].
      replace (snd (processRow now st 0 row)) with st1
        by (rewrite processRow_fill; rewrite <- (processRow_fill now st idx row);
            now rewrite E).
      now rewrite Nat.add_succ_r.
Qed.

Lemma hold_blank row col held : blankAt row col -> hold (nth_error row col) held = held.
Proof. now intros [-> | ->]. Qed.

Lemma hold_value row col held v :
  nth_error row col = Some v -> v <> [] -> hold (nth_error row col) held = v.
Proof. intros -> Hv. destruct v; [congruence|reflexivity]. Qed.

Lemma heldAfter_blank col rows : forall held,
  Forall (fun row => blankAt row col) rows -> heldAfter col held rows = held.
Proof.
  induction rows as [|row rest IH]; intros held Hall; [reflexivity|].
  inversion Hall; subst. unfold heldAfter. cbn [fold_left].
  rewrite hold_blank by assumption. now apply IH.
Qed.

(** After a run of rows the value held for a column is that of the last row
    that has one. *)
Lemma heldAfter_nearest col rows held j rj v :
  nth_error rows j = Some rj ->
  nth_error rj col = Some v -> v <> [] ->
  (forall k rk, (j < k)%nat -> nth_error rows k = Some rk -> blankAt rk col) ->
  heldAfter col held rows = v.
Proof.
  intros Hj Hv Hne Hblank.
  destruct (nth_error_split _ _ Hj) as (l1 & l2 & -> & Hlen).
  unfold heldAfter. rewrite fold_left_app. cbn [fold_left].
  rewrite (@hold_value rj col _ v Hv Hne).
  apply heldAfter_blank. apply Forall_forall. intros rk Hin.
  destruct (In_nth_error _ _ Hin) as [m Hm].
  apply (Hblank (List.length l1 + S m)%nat); [lia|].
  rewrite nth_error_app2 by lia.
  replace (List.length l1 + S m - List.length l1)%nat with (S m) by lia.
  exact Hm.
Qed.

Lemma heldAfter_snoc col rows row held :
  heldAfter col held (rows ++ [row])
  = hold (nth_error row col) (heldAfter col held rows).
Proof. unfold heldAfter. now rewrite fold_left_app. Qed.

Lemma firstn_snoc (rows : list (list jsstring)) i row :
  nth_error rows i = Some row -> firstn (S i) rows = firstn i rows ++ [row].
Proof.
  revert i. induction rows as [|r rest IH]; intros [|i] H; try discriminate.
  - now injection H as ->.
  - cbn [firstn app]. f_equal. now apply IH.
Qed.

(** The three descriptors of the item at position [i], from the values held
    once row [i] has been seen. *)
Lemma item_descriptors now rows i item :
  nth_error (mapRows now initialFill 0 rows) i = Some item ->
  category item = orStr (Some (heldAfter 1 [] (firstn (S i) rows))) DEFAULT_CATEGORY
  /\ brand item = orStr (Some (heldAfter 2 [] (firstn (S i) rows))) DEFAULT_BRAND
  /\ productName item
     = orStr (Some (heldAfter 12 [] (firstn (S i) rows))) UNKNOWN_PRODUCT.
Proof.
  intros H. destruct (mapRows_nth _ _ _ _ _ _ H) as (row & Hrow & ->).
  rewrite (firstn_snoc _ _ _ Hrow), !heldAfter_snoc, fillAfter_held.
  repeat split.
Qed.

Lemma fetch_body_nth now rnd csvText item :
  In item (fetchInventoryData now rnd (Body csvText)) ->
  hasProductName item = true
  /\ exists i, nth_error (reconstruct now (parseRows csvText)) i = Some item.
Proof.
  cbn [fetchInventoryData]. unfold itemsOfCsv. intros H.
  apply filter_In in H as [H Hn]. split; [exact Hn|].
  now apply In_nth_error.
Qed.

Lemma orStr_value v d : v <> [] -> orStr (Some v) d = v.
Proof. destruct v; [congruence|reflexivity]. Qed.

(** C7. In one pass, the record of a data row carries for category, brand and
    product name the value of the nearest data row at or before it that has
    one: its own value when it has one, and otherwise the value held from
    row [j], the last row before it that is not blank in that column. *)
Theorem forward_fill now rows i j rj col v item :
  nth_error (reconstruct now rows) i = Some item ->
  (j <= i)%nat ->
  nth_error (dataRows rows) j = Some rj ->
  nth_error rj col = Some v -> v <> [] ->
  (forall k rk, (j < k <= i)%nat ->
     nth_error (dataRows rows) k = Some rk -> blankAt rk col) ->
  (col = 1%nat -> category item = v)
  /\ (col = 2%nat -> brand item = v)
  /\ (col = 12%nat -> productName item = v).
Proof.
  intros Hitem Hji Hj Hv Hne Hblank.
  unfold reconstruct in Hitem.
  destruct (item_descriptors _ _ _ _ Hitem) as (Hc & Hb & Hp).
  assert (Hheld : heldAfter col [] (firstn (S i) (dataRows rows)) = v).
  { apply (heldAfter_nearest col _ [] j rj v); trivial.
    - rewrite nth_error_firstn.
      destruct (Nat.ltb_spec j (S i)); [exact Hj|lia].
    - intros k rk Hk Hrk. rewrite nth_error_firstn in Hrk.
      destruct (Nat.ltb_spec k (S i)); [|discriminate].
      apply (Hblank k); [lia|exact Hrk]. }
  repeat split; intros ->; rewrite ?Hc, ?Hb, ?Hp, Hheld;
    now apply orStr_value.
Qed.

Lemma forward_fill_witness :
  exists item,
    nth_error (reconstruct sampleToday (parseRows mergedCellsCsv)) 2 = Some item
    /\ category item = lit "outer".
Proof.
  let v := eval vm_compute in
      (nth_error (reconstruct sampleToday (parseRows mergedCellsCsv)) 2) in
  match v with Some ?x => pose (item := x) end.
  assert (Hitem : nth_error (reconstruct sampleToday (parseRows mergedCellsCsv)) 2
                  = Some item) by (vm_compute; reflexivity).
  exists item. split; [exact Hitem|].
  let r := eval vm_compute in
      (nth_error (dataRows (parseRows mergedCellsCsv)) 0) in
  match r with Some ?x => pose (rj := x) end.
  refine (proj1 (forward_fill sampleToday (parseRows mergedCellsCsv) 2 0 rj 1
                   (lit "outer") item Hitem _ _ _ _ _) eq_refl).
  - lia.
  - vm_compute. reflexivity.
  - vm_compute. reflexivity.
  - discriminate.
  - intros k rk Hk Hrk.
    destruct k as [|[|[|k]]]; try lia;
      vm_compute in Hrk; injection Hrk as <-; right; reflexivity.
Defined.

(** ** C8: the product name of the output *)

Lemma str_eqb_eq a : forall b, str_eqb a b = true <-> a = b.
Proof.
  induction a as [|x a IH]; intros [|y b]; cbn [str_eqb]; try easy.
  rewrite andb_true_iff, N.eqb_eq, IH. split.
  - now intros [-> ->].
  - now intros [= -> ->].
Qed.

Lemma ofString_inj s t : ofString s = ofString t -> s = t.
Proof.
  unfold ofString, bytes. intros H.
  rewrite <- (string_of_list_ascii_of_string s),
          <- (string_of_list_ascii_of_string t).
  f_equal. revert H.
  generalize (list_ascii_of_string s) (list_ascii_of_string t).
  induction l as [|a l IH]; intros [|b l']; cbn [map]; try easy.
  intros [= Hab Hl]. f_equal; [|now apply IH].
  rewrite <- (ascii_N_embedding a), <- (ascii_N_embedding b). now f_equal.
Qed.

Lemma natToString_inj n m : natToString n = natToString m -> n = m.
Proof.
  unfold natToString. intros H. apply ofString_inj in H.
  assert (Hnn : forall k, Nat.to_uint k <> Decimal.Nil).
  { intros k. rewrite <- (DecimalNat.Unsigned.of_to k) at 1.
    rewrite DecimalNat.Unsigned.to_of. apply DecimalFacts.unorm_nonnil. }
  apply (f_equal NilZero.uint_of_string) in H.
  rewrite !NilZero.usu in H by apply Hnn.
  injection H as H. now apply DecimalNat.Unsigned.to_uint_inj.
Qed.

Lemma mapRows_id now rows st idx i item :
  nth_error (mapRows now st idx rows) i = Some item ->
  id item = lit "row-" ++ natToString (idx + i).
Proof.
  intros H. destruct (mapRows_nth _ _ _ _ _ _ H) as (row & _ & ->).
  reflexivity.
Qed.

(** The value held for a column is empty or one of the column's texts. *)
Lemma heldAfter_from col rows : forall held,
  heldAfter col held rows = held
  \/ exists row, In row rows /\ nth_error row col = Some (heldAfter col held rows).
Proof.
  induction rows as [|row rest IH]; intros held; [now left|].
  unfold heldAfter. cbn [fold_left].
  destruct (IH (hold (nth_error row col) held)) as [E|(r & Hr & E)].
  - unfold heldAfter in E. rewrite E.
    destruct (nth_error row col) as [[|c s]|] eqn:Ec; cbn [hold];
      try (now left).
    right. exists row. split; [now left|exact Ec].
  - right. exists r. split; [now right|exact E].
Qed.

Lemma dataRows_trimmed csvText row f :
  In row (dataRows (parseRows csvText)) -> In f row -> trim f = f.
Proof.
  unfold dataRows. intros Hrow Hf.
  apply filter_In in Hrow as [Hrow _].
  assert (Hin : In row (parseRows csvText)).
  { destruct (parseRows csvText); [destruct Hrow|now right]. }
  unfold parseRows in Hin. apply in_map_iff in Hin as (line & <- & _).
  pose proof (parseLine_trimmed line) as Ht.
  rewrite Forall_forall in Ht. now apply Ht.
Qed.

Lemma firstn_In (rows : list (list jsstring)) n row :
  In row (firstn n rows) -> In row rows.
Proof.
  intros H. rewrite <- (firstn_skipn n rows). apply in_or_app. now left.
Qed.

(** C8. Every record of the output has a product name that is not blank, and
    the record of a data row is left out when neither that row nor any data
    row before it has a product name: no record of the output has its
    identifier, and the item built for it does not pass the last filter. *)
Theorem product_name_resolved now rnd csvText :
  (forall item,
     In item (fetchInventoryData now rnd (Body csvText)) ->
     productName item <> [] /\ nonBlank (productName item))
  /\ (forall i,
        (forall k rk, (k <= i)%nat ->
           nth_error (dataRows (parseRows csvText)) k = Some rk ->
           blankAt rk 12) ->
        (forall item,
           In item (fetchInventoryData now rnd (Body csvText)) ->
           id item <> lit "row-" ++ natToString i)
        /\ (forall item,
              nth_error (reconstruct now (parseRows csvText)) i = Some item ->
              hasProductName item = false)).
Proof.
  split.
  - intros item Hin.
    destruct (fetch_body_nth _ _ _ _ Hin) as (Hn & i & Hi).
    unfold reconstruct in Hi.
    destruct (item_descriptors _ _ _ _ Hi) as (_ & _ & Hp).
    set (rows := firstn (S i) (dataRows (parseRows csvText))) in *.
    destruct (heldAfter 12 [] rows) as [|c r] eqn:Eh.
    { unfold hasProductName in Hn. rewrite Hp in Hn. cbn [orStr] in Hn.
      rewrite (proj2 (str_eqb_eq _ _) eq_refl) in Hn. discriminate. }
    rewrite Hp. cbn [orStr]. split; [discriminate|].
    destruct (heldAfter_from 12 rows []) as [E|(row & Hrow & E)];
      [congruence|].
    rewrite Eh in E.
    assert (Ht : trim (c :: r) = c :: r).
    { apply (dataRows_trimmed csvText row).
      - exact (firstn_In _ _ _ Hrow).
      - exact (nth_error_In _ _ E). }
    exists c. split; [now left|]. exact (trim_head _ _ _ Ht).
  - intros i Hblank.
    assert (Hdrop : forall item,
              nth_error (reconstruct now (parseRows csvText)) i = Some item ->
              hasProductName item = false).
    { intros item Hi. unfold reconstruct in Hi.
      destruct (item_descriptors _ _ _ _ Hi) as (_ & _ & Hp).
      rewrite heldAfter_blank in Hp.
      - unfold hasProductName. rewrite Hp. cbn [orStr].
        now rewrite (proj2 (str_eqb_eq _ _) eq_refl).
      - apply Forall_forall. intros rk Hrk.
        destruct (In_nth_error _ _ Hrk) as [k Hk].
        rewrite nth_error_firstn in Hk.
        destruct (Nat.ltb_spec k (S i)); [|discriminate].
        apply (Hblank k); [lia|exact Hk]. }
    split; [|exact Hdrop].
    intros item Hin Hid.
    destruct (fetch_body_nth _ _ _ _ Hin) as (Hn & k & Hk).
    pose proof Hk as Hk'. unfold reconstruct in Hk'.
    apply mapRows_id in Hk'. rewrite Hk' in Hid.
    apply app_inv_head in Hid. apply natToString_inj in Hid.
    cbn in Hid. subst k.
    rewrite (Hdrop _ Hk) in Hn. discriminate.
Qed.

Lemma product_name_resolved_witness :
  exists item,
    In item (fetchInventoryData sampleToday (constRnd 0) (Body lateNameCsv))
    /\ nonBlank (productName item)
    /\ id item <> lit "row-" ++ natToString 0.
Proof.
  first_item (fetchInventoryData sampleToday (constRnd 0) (Body lateNameCsv))
             item Hin.
  exists item. split; [exact Hin|].
  destruct (product_name_resolved sampleToday (constRnd 0) lateNameCsv)
    as [H1 H2].
  split; [exact (proj2 (H1 item Hin))|].
  apply (H2 0%nat); [|exact Hin].
  intros k rk Hk Hrk.
  destruct k as [|k]; [|lia].
  vm_compute in Hrk. injection Hrk as <-. right. reflexivity.
Defined.

(** ** The model on the worked examples of the specification *)

Example salesGrowth_revived : salesGrowthOf 50 0 == 100.
Proof. reflexivity. Qed.

Example salesGrowth_idle : salesGrowthOf 0 0 == 0.
Proof. reflexivity. Qed.

Example salesGrowth_doubled : salesGrowthOf 80 40 == 100.
Proof. reflexivity. Qed.

Example horizon_of_seventy : daysToStockOutOf 70 (dailySalesOf 70) = 7%Z.
Proof. reflexivity. Qed.

Example horizon_without_sales : daysToStockOutOf 70 (dailySalesOf 0) = 365%Z.
Proof. reflexivity. Qed.

(** 15 March 2026 is day 20527, 2 November 2026 is day 20759. *)
Example spring_code_in_march :
  analyzeSkuMetadata 20527%Z (lit "FBESUTS001WH00L") = mkMeta GENERAL 21 true.
Proof. reflexivity. Qed.

Example spring_code_in_november :
  analyzeSkuMetadata 20759%Z (lit "FBESUTS001WH00L") = mkMeta GENERAL 21 false.
Proof. reflexivity. Qed.

Example padding_code :
  analyzeSkuMetadata 20759%Z (lit "FBEWODW001BK00M") = mkMeta PADDING 50 true.
Proof. reflexivity. Qed.

Example outer_code_lower_case :
  analyzeSkuMetadata 20759%Z (lit "fbeaojk001bk00m") = mkMeta OUTER 35 true.
Proof. reflexivity. Qed.

Example parseInt_prefix : parseInt (Some (lit "12abc")) = Some 12%Z.
Proof. reflexivity. Qed.

Example parseInt_hex : parseInt (Some (lit " -0x1Fz")) = Some (-31)%Z.
Proof. reflexivity. Qed.

Example parseInt_text : parseInt (Some (lit "n/a")) = None.
Proof. reflexivity. Qed.

Example date_of_pass :
  toLocaleDateString sampleToday = lit "2026. 11. 2.".
Proof. reflexivity. Qed.

Example leap_day :
  (YearFromTime 19782%Z, MonthFromTime 19782%Z, DateFromTime 19782%Z)
  = (2024%Z, 1%Z, 29%Z).
Proof. reflexivity. Qed.

Example setDate_over_the_year :
  toLocaleDateString (setDate sampleToday (getDate sampleToday + 60)%Z)
  = lit "2027. 1. 1.".
Proof. reflexivity. Qed.

Example mock_data_size :
  List.length (generateMockData sampleToday (constRnd (1 # 2))) = 50%nat.
Proof. reflexivity. Qed.

Example merged_cells_filled :
  map (fun item => (category item, brand item, productName item))
      (fetchInventoryData sampleToday (constRnd 0) (Body mergedCellsCsv))
  = [(lit "outer", lit "brandA", lit "coat");
     (lit "outer", lit "brandA", lit "coat");
     (lit "outer", lit "brandA", lit "coat")].
Proof. reflexivity. Qed.

Example late_name_ids :
  map id (fetchInventoryData sampleToday (constRnd 0) (Body lateNameCsv))
  = [lit "row-1"].
Proof. reflexivity. Qed.

(** * Further properties of the code *)

(** ** Sorting *)

Section SortFacts.

Variable A : Type.
Variable cmpLe : A -> A -> bool.

Lemma insertSorted_perm x l : Permutation (insertSorted cmpLe x l) (x :: l).
Proof.
  induction l as [|y l IH]; cbn [insertSorted]; [reflexivity|].
  destruct (cmpLe x y); [reflexivity|].
  rewrite IH. apply perm_swap.
Qed.

Lemma sort_perm l : Permutation (sort cmpLe l) l.
Proof.
  induction l as [|x l IH]; cbn [sort fold_right]; [reflexivity|].
  fold (sort cmpLe l). rewrite insertSorted_perm. now constructor.
Qed.

Hypothesis cmpLe_total : forall a b, cmpLe a b = true \/ cmpLe b a = true.
Hypothesis cmpLe_trans :
  forall a b c, cmpLe a b = true -> cmpLe b c = true -> cmpLe a c = true.

Lemma insertSorted_sorted x l :
  StronglySorted (fun a b => cmpLe a b = true) l ->
  StronglySorted (fun a b => cmpLe a b = true) (insertSorted cmpLe x l).
Proof.
  induction 1 as [|y l Hs IH Hy]; cbn [insertSorted].
  - repeat constructor.
  - destruct (cmpLe x y) eqn:E.
    + constructor; [now constructor|].
      constructor; [exact E|].
      rewrite Forall_forall in *. intros z Hz. eauto.
    + constructor; [exact IH|].
      assert (Hyx : cmpLe y x = true)
        by (destruct (cmpLe_total x y); congruence).
      rewrite Forall_forall in *. intros z Hz.
      apply (Permutation_in _ (insertSorted_perm x l)) in Hz.
      destruct Hz as [<-|Hz]; auto.
Qed.

Lemma sort_sorted l : StronglySorted (fun a b => cmpLe a b = true) (sort cmpLe l).
Proof.
  induction l as [|x l IH]; cbn [sort fold_right]; [constructor|].
  now apply insertSorted_sorted.
Qed.

End SortFacts.

Lemma StronglySorted_app_order (A : Type) (R : A -> A -> Prop) l1 : forall l2,
  StronglySorted R (l1 ++ l2) ->
  forall a b, In a l1 -> In b l2 -> R a b.
Proof.
  induction l1 as [|x l1 IH]; intros l2 Hs a b Ha Hb; [destruct Ha|].
  cbn [app] in Hs. inversion Hs as [|? ? Hs' Hx]; subst.
  destruct Ha as [<-|Ha].
  - rewrite Forall_forall in Hx. apply Hx, in_or_app. now right.
  - now apply (IH l2).
Qed.

Lemma StronglySorted_firstn (A : Type) (R : A -> A -> Prop) n l :
  StronglySorted R l -> StronglySorted R (firstn n l).
Proof.
  revert n. induction l as [|x l IH]; intros [|n] Hs; cbn [firstn];
    try constructor.
  - inversion Hs; subst. now apply IH.
  - inversion Hs as [|? ? _ Hx]; subst.
    rewrite Forall_forall in *. intros y Hy. apply Hx.
    rewrite <- (firstn_skipn n l). apply in_or_app. now left.
Qed.

(** The first [k] of a sorted array against the ones left out. *)
Lemma sort_top (A : Type) (cmpLe : A -> A -> bool) k l :
  (forall a b, cmpLe a b = true \/ cmpLe b a = true) ->
  (forall a b c, cmpLe a b = true -> cmpLe b c = true -> cmpLe a c = true) ->
  let top := firstn k (sort cmpLe l) in
  let rest := skipn k (sort cmpLe l) in
  Permutation l (top ++ rest)
  /\ StronglySorted (fun a b => cmpLe a b = true) top
  /\ (forall a b, In a top -> In b rest -> cmpLe a b = true)
  /\ List.length top = Nat.min k (List.length l).
Proof.
  intros Htot Htr top rest.
  pose proof (sort_sorted A cmpLe Htot Htr l) as Hs.
  split; [|split; [|split]].
  - subst top rest. rewrite firstn_skipn. symmetry. apply sort_perm.
  - now apply StronglySorted_firstn.
  - apply StronglySorted_app_order. subst top rest. now rewrite firstn_skipn.
  - subst top. rewrite length_firstn.
    now rewrite (Permutation_length (sort_perm A cmpLe l)).
Qed.

Lemma includes_In arr x : includes arr x = true <-> In x arr.
Proof.
  unfold includes. rewrite existsb_exists. split.
  - intros (y & Hy & E). apply str_eqb_eq in E. now subst.
  - intros H. exists x. split; [exact H|]. now apply str_eqb_eq.
Qed.

Lemma includes_not_In arr x : includes arr x = false <-> ~ In x arr.
Proof.
  rewrite <- includes_In. destruct (includes arr x); split; congruence.
Qed.

Lemma str_eqb_neq a b : str_eqb a b = false <-> a <> b.
Proof.
  rewrite <- str_eqb_eq. destruct (str_eqb a b); split; congruence.
Qed.

Lemma StronglySorted_weaken (A : Type) (R S : A -> A -> Prop) l :
  (forall a b, R a b -> S a b) -> StronglySorted R l -> StronglySorted S l.
Proof.
  intros HRS. induction 1 as [|x l _ IH Hx]; constructor; trivial.
  rewrite Forall_forall in *. auto.
Qed.

(** ** [topSellers] *)

Lemma bySalesDesc_le a b :
  bySalesDesc a b = true <-> (currentWeekSales b <= currentWeekSales a)%Z.
Proof. unfold bySalesDesc. rewrite Z.leb_le. lia. Qed.

Lemma bySalesDesc_total a b : bySalesDesc a b = true \/ bySalesDesc b a = true.
Proof. rewrite !bySalesDesc_le. lia. Qed.

Lemma bySalesDesc_trans a b c :
  bySalesDesc a b = true -> bySalesDesc b c = true -> bySalesDesc a c = true.
Proof. rewrite !bySalesDesc_le. lia. Qed.

Lemma insertSorted_soldExactly k x l :
  soldExactly k (insertSorted bySalesDesc x l) = soldExactly k (x :: l).
Proof.
  unfold soldExactly.
  induction l as [|y l IH]; cbn [insertSorted]; [reflexivity|].
  destruct (bySalesDesc x y) eqn:E; [reflexivity|].
  assert (Hlt : (currentWeekSales x < currentWeekSales y)%Z).
  { destruct (Z.lt_ge_cases (currentWeekSales x) (currentWeekSales y)); trivial.
    assert (bySalesDesc x y = true) by (apply bySalesDesc_le; lia).
    congruence. }
  cbn [filter] in *. rewrite IH.
  destruct (Z.eqb_spec (currentWeekSales x) k),
           (Z.eqb_spec (currentWeekSales y) k); try reflexivity; lia.
Qed.

Lemma sort_soldExactly k l :
  soldExactly k (sort bySalesDesc l) = soldExactly k l.
Proof.
  induction l as [|x l IH]; [reflexivity|].
  cbn [sort fold_right]. fold (sort bySalesDesc l).
  rewrite insertSorted_soldExactly. unfold soldExactly in *. cbn [filter].
  now rewrite IH.
Qed.

(** X21. The best sellers are the first 20 of the inventory arranged by falling
    weekly sales, items with equal sales in the order of the inventory: there
    are [min 20 n] of them, in falling order, and no item left out sold more
    than one of them. *)
Theorem topSellers_ranking inventory :
  exists sorted,
    topSellers inventory = firstn 20 sorted
    /\ Permutation inventory sorted
    /\ (forall k, soldExactly k sorted = soldExactly k inventory)
    /\ List.length (topSellers inventory) = Nat.min 20 (List.length inventory)
    /\ StronglySorted
         (fun a b => (currentWeekSales b <= currentWeekSales a)%Z)
         (topSellers inventory)
    /\ (forall a b,
          In a (topSellers inventory) -> In b (skipn 20 sorted) ->
          (currentWeekSales b <= currentWeekSales a)%Z).
Proof.
  exists (sort bySalesDesc inventory).
  destruct (sort_top _ bySalesDesc 20 inventory bySalesDesc_total bySalesDesc_trans)
    as (Hp & Hs & Ho & Hl).
  split; [reflexivity|]. split.
  { symmetry. apply sort_perm. }
  split; [intros k; apply sort_soldExactly|].
  split; [exact Hl|]. split.
  - apply (StronglySorted_weaken _ _ _ _ (fun a b => proj1 (bySalesDesc_le a b))).
    exact Hs.
  - intros a b Ha Hb. apply bySalesDesc_le. now apply Ho.
Qed.

(** ** [toggleOrder] *)

Lemma toggleOrder_marked id prev :
  In id prev -> toggleOrder id prev = filter (fun i => negb (str_eqb i id)) prev.
Proof. intros H. unfold toggleOrder. now rewrite (proj2 (includes_In _ _) H). Qed.

Lemma toggleOrder_unmarked id prev :
  ~ In id prev -> toggleOrder id prev = prev ++ [id].
Proof.
  intros H. unfold toggleOrder. now rewrite (proj2 (includes_not_In _ _) H).
Qed.

Lemma In_without id x prev :
  In x (filter (fun i => negb (str_eqb i id)) prev) <-> In x prev /\ x <> id.
Proof.
  rewrite filter_In, negb_true_iff, str_eqb_neq. tauto.
Qed.

Lemma In_dec_str (x : jsstring) l : In x l \/ ~ In x l.
Proof.
  destruct (includes l x) eqn:E;
    [left; now apply includes_In|right; now apply includes_not_In].
Qed.

(** X19. Toggling an identifier flips its mark and no other: afterwards it is
    marked exactly when it was not, every other identifier is marked exactly
    when it was, and a list without repetitions stays so. *)
Theorem toggleOrder_flips id prev :
  (In id (toggleOrder id prev) <-> ~ In id prev)
  /\ (forall x, x <> id -> (In x (toggleOrder id prev) <-> In x prev))
  /\ (NoDup prev -> NoDup (toggleOrder id prev)).
Proof.
  destruct (In_dec_str id prev) as [H|H].
  - rewrite (toggleOrder_marked _ _ H). repeat split.
    + intros H'. apply In_without in H'. tauto.
    + tauto.
    + intros H'. apply In_without in H'. tauto.
    + intros H'. apply In_without. tauto.
    + intros Hn. now apply NoDup_filter.
  - rewrite (toggleOrder_unmarked _ _ H). repeat split.
    + tauto.
    + intros _. apply in_or_app. right. now left.
    + intros H'. apply in_app_or in H' as [H'|[H'|[]]]; congruence.
    + intros H'. apply in_or_app. now left.
    + intros Hn. apply NoDup_app; trivial.
      * repeat constructor. intros [].
      * intros a Ha [<-|[]]. contradiction.
Qed.

(** X20. Marking an identifier that is not marked and toggling it again gives the
    list back as it was.  Toggling twice an identifier that is marked moves
    it to the end: its occurrences are removed and one is appended. *)
Theorem toggleOrder_twice id prev :
  (~ In id prev -> toggleOrder id (toggleOrder id prev) = prev)
  /\ (In id prev ->
      toggleOrder id (toggleOrder id prev)
      = filter (fun i => negb (str_eqb i id)) prev ++ [id]).
Proof.
  split; intros H.
  - rewrite (toggleOrder_unmarked _ _ H).
    rewrite toggleOrder_marked by (apply in_or_app; right; now left).
    rewrite filter_app. cbn [filter].
    rewrite (proj2 (str_eqb_eq id id) eq_refl). cbn [negb].
    rewrite app_nil_r. apply forallb_filter_id.
    apply forallb_forall. intros x Hx.
    apply negb_true_iff, str_eqb_neq. congruence.
  - rewrite (toggleOrder_marked _ _ H).
    apply toggleOrder_unmarked. intros H'. apply In_without in H'. tauto.
Qed.

Lemma toggleOrder_twice_witness :
  toggleOrder (lit "row-1") (toggleOrder (lit "row-1") [lit "row-0"])
  = [lit "row-0"].
Proof.
  apply (proj1 (toggleOrder_twice (lit "row-1") [lit "row-0"])).
  intros [H|[]]. discriminate.
Defined.

(** ** [urgentReorders] *)


Lemma isUrgentCandidate_spec orderedItems item :
  isUrgentCandidate orderedItems item = true
  <-> (0 < currentWeekSales item)%Z /\ isSeasonalFit item = true
      /\ ~ In (id item) orderedItems.
Proof.
  unfold isUrgentCandidate.
  rewrite !andb_true_iff, Z.ltb_lt, negb_true_iff, includes_not_In. tauto.
Qed.



(** ** [stats] *)

Lemma isPendingCritical_spec orderedItems i :
  isPendingCritical orderedItems i = true
  <-> status i = CRITICAL /\ ~ In (id i) orderedItems.
Proof.
  unfold isPendingCritical.
  rewrite andb_true_iff, negb_true_iff, includes_not_In.
  destruct (status i); cbn; intuition congruence.
Qed.

Lemma filter_length_le (A : Type) (f : A -> bool) l :
  (List.length (filter f l) <= List.length l)%nat.
Proof.
  induction l as [|x l IH]; cbn [filter]; [lia|].
  destruct (f x); cbn [List.length]; lia.
Qed.

Lemma filter_none (A : Type) (f : A -> bool) l :
  (forall x, In x l -> f x = false) -> filter f l = [].
Proof.
  induction l as [|x l IH]; intros H; [reflexivity|].
  cbn [filter]. rewrite (H x) by now left.
  apply IH. intros y Hy. apply H. now right.
Qed.

(** Marking one more identifier lowers the count of a filter that excludes
    the marked ones by one, when just one item carries the identifier. *)
Lemma pending_after_mark inventory : forall orderedItems item,
  NoDup (map id inventory) -> In item inventory ->
  isPendingCritical orderedItems item = true ->
  List.length (filter (isPendingCritical orderedItems) inventory)
  = S (List.length
         (filter (isPendingCritical (orderedItems ++ [id item])) inventory)).
Proof.
  induction inventory as [|x l IH]; intros orderedItems item Hnd Hin Hp;
    [destruct Hin|].
  cbn [map] in Hnd. inversion Hnd as [|? ? Hx Hl]; subst.
  assert (Hstep : forall y, id y <> id item ->
            isPendingCritical (orderedItems ++ [id item]) y
            = isPendingCritical orderedItems y).
  { intros y Hy. unfold isPendingCritical. f_equal. f_equal.
    destruct (includes orderedItems (id y)) eqn:E.
    - apply includes_In. apply in_or_app. left. now apply includes_In.
    - apply includes_not_In. apply includes_not_In in E.
      intros H. apply in_app_or in H as [H|[H|[]]]; congruence. }
  cbn [filter]. destruct Hin as [->|Hin].
  - rewrite Hp.
    assert (Hoff : isPendingCritical (orderedItems ++ [id item]) item = false).
    { unfold isPendingCritical.
      replace (includes (orderedItems ++ [id item]) (id item)) with true.
      - now rewrite andb_false_r.
      - symmetry. apply includes_In, in_or_app. right. now left. }
    rewrite Hoff. cbn [List.length]. f_equal. f_equal.
    apply filter_ext_in. intros y Hy. symmetry. apply Hstep.
    intros E. apply Hx. rewrite <- E. now apply in_map.
  - assert (Hne : id x <> id item).
    { intros E. apply Hx. rewrite E. now apply in_map. }
    rewrite (Hstep x Hne).
    destruct (isPendingCritical orderedItems x); cbn [List.length];
      now rewrite (IH orderedItems item Hl Hin Hp).
Qed.

(** X24. When the identifiers of the inventory are distinct, marking a Critical
    item that is not yet marked lowers the pending count by one and raises
    the count of marks by one; the total and the weekly sales stay. *)
Theorem stats_after_order inventory orderedItems item :
  NoDup (map id inventory) ->
  In item inventory ->
  status item = CRITICAL ->
  ~ In (id item) orderedItems ->
  let before := stats inventory orderedItems in
  let after := stats inventory (toggleOrder (id item) orderedItems) in
  critical before = S (critical after)
  /\ orderedCount after = S (orderedCount before)
  /\ total after = total before
  /\ totalWeeklySales after = totalWeeklySales before.
Proof.
  intros Hnd Hin Hst Hno before after. subst before after.
  rewrite (toggleOrder_unmarked _ _ Hno). unfold stats.
  cbn [critical orderedCount total totalWeeklySales].
  split; [|split; [|split]]; trivial.
  - apply pending_after_mark; trivial.
    apply isPendingCritical_spec. now split.
  - rewrite length_app. cbn. lia.
Qed.

Lemma stats_after_order_witness :
  exists item,
    In item (fetchInventoryData sampleToday (constRnd 0) (Body negativeStockCsv))
    /\ critical (stats (fetchInventoryData sampleToday (constRnd 0)
                          (Body negativeStockCsv)) []) = 1%nat
    /\ critical (stats (fetchInventoryData sampleToday (constRnd 0)
                          (Body negativeStockCsv))
                   (toggleOrder (id item) [])) = 0%nat.
Proof.
  first_item (fetchInventoryData sampleToday (constRnd 0) (Body negativeStockCsv))
             item Hin.
  exists item. split; [exact Hin|]. split; [reflexivity|].
  assert (H : critical (stats (fetchInventoryData sampleToday (constRnd 0)
                                 (Body negativeStockCsv)) [])
              = S (critical (stats (fetchInventoryData sampleToday (constRnd 0)
                                      (Body negativeStockCsv))
                               (toggleOrder (id item) [])))).
  { apply (stats_after_order
             (fetchInventoryData sampleToday (constRnd 0) (Body negativeStockCsv))
             [] item).
    - vm_compute. repeat constructor. intros [].
    - exact Hin.
    - reflexivity.
    - intros []. }
  change (critical (stats (fetchInventoryData sampleToday (constRnd 0)
                             (Body negativeStockCsv)) [])) with 1%nat in H.
  exact (eq_sym (eq_add_S _ _ H)).
Defined.

(** X25. The pending count never exceeds the total, and is zero once every
    Critical item is marked. *)
Theorem stats_pending_bound inventory orderedItems :
  (critical (stats inventory orderedItems) <= total (stats inventory orderedItems))%nat
  /\ ((forall i, In i inventory -> status i = CRITICAL -> In (id i) orderedItems) ->
      critical (stats inventory orderedItems) = 0%nat).
Proof.
  unfold stats. cbn [critical total]. split; [apply filter_length_le|].
  intros H.
  assert (E : filter (isPendingCritical orderedItems) inventory = []).
  { apply filter_none. intros i Hi.
    destruct (isPendingCritical orderedItems i) eqn:E; [|reflexivity].
    apply isPendingCritical_spec in E as [E1 E2]. exfalso. auto. }
  now rewrite E.
Qed.

(** ** [analysisTargets] *)

Lemma isAnalysisTarget_spec i :
  isAnalysisTarget i = true <-> status i = CRITICAL \/ 30 < salesGrowth i.
Proof.
  unfold isAnalysisTarget. rewrite orb_true_iff, negb_true_iff.
  assert (H1 : status_eqb (status i) CRITICAL = true <-> status i = CRITICAL)
    by (destruct (status i); cbn; intuition congruence).
  assert (H2 : Qle_bool (salesGrowth i) 30 = false <-> 30 < salesGrowth i).
  { destruct (Qle_bool (salesGrowth i) 30) eqn:E.
    - apply Qle_bool_iff in E. split; [discriminate|intros; lra].
    - split; [intros _|reflexivity].
      destruct (Qlt_le_dec 30 (salesGrowth i)) as [|Hle]; trivial.
      apply Qle_bool_iff in Hle. congruence. }
  rewrite H1, H2. reflexivity.
Qed.


(** ** [salesGrowth] of the records of the sheet *)

Lemma processRow_salesGrowth now st idx row :
  let item := fst (processRow now st idx row) in
  salesGrowth item = salesGrowthOf (currentWeekSales item) (lastWeekSales item).
Proof. reflexivity. Qed.

Lemma salesGrowthOf_cases cws lws :
  (lws = 0%Z -> (0 < cws)%Z -> salesGrowthOf cws lws == 100)
  /\ (lws = 0%Z -> (cws <= 0)%Z -> salesGrowthOf cws lws == 0)
  /\ ((0 < lws)%Z -> (0 <= cws)%Z -> -100 <= salesGrowthOf cws lws)
  /\ ((0 < lws)%Z -> (0 < salesGrowthOf cws lws <-> (lws < cws)%Z))
  /\ ((0 < lws)%Z -> (salesGrowthOf cws lws == 0 <-> cws = lws)).
Proof.
  unfold salesGrowthOf.
  destruct (Z.eqb_spec lws 0) as [->|Hne].
  - destruct (Z.ltb_spec 0 cws); repeat split; intros; try lia; reflexivity.
  - assert (Hdiv : (0 < lws)%Z ->
              inject_Z (cws - lws) / inject_Z lws * 100
              == inject_Z (100 * (cws - lws)) / inject_Z lws).
    { intros Hl. rewrite inject_Z_mult. field.
      intros E. apply (inject_Z_injective lws 0) in E. lia. }
    assert (Hpos : (0 < lws)%Z -> 0 < inject_Z lws)
      by (intros Hl; change 0 with (inject_Z 0); now rewrite <- Zlt_Qlt).
    repeat split; try (intros; lia).
    + intros Hl Hc. rewrite (Hdiv Hl).
      apply Qle_shift_div_l; [now apply Hpos|].
      change (-100) with (inject_Z (-100)).
      rewrite <- inject_Z_mult, <- Zle_Qle. lia.
    + rewrite (Hdiv H). intros Hg.
      apply (Qmult_lt_compat_r _ _ (inject_Z lws) (Hpos H)) in Hg.
      rewrite Qmult_0_l in Hg.
      assert (E : inject_Z (100 * (cws - lws)) / inject_Z lws * inject_Z lws
                  == inject_Z (100 * (cws - lws))).
      { field. intros E. apply (inject_Z_injective lws 0) in E. lia. }
      rewrite E in Hg. change 0 with (inject_Z 0) in Hg.
      rewrite <- Zlt_Qlt in Hg. lia.
    + rewrite (Hdiv H). intros Hg.
      apply Qlt_shift_div_l; [now apply Hpos|].
      rewrite Qmult_0_l. change 0 with (inject_Z 0).
      rewrite <- Zlt_Qlt. lia.
    + rewrite (Hdiv H). intros Hg.
      assert (E : inject_Z (100 * (cws - lws))
                  == inject_Z (100 * (cws - lws)) / inject_Z lws * inject_Z lws).
      { field. intros E. apply (inject_Z_injective lws 0) in E. lia. }
      rewrite Hg, Qmult_0_l in E.
      unfold Qeq, inject_Z in E. cbn [Qnum Qden] in E. lia.
    + intros ->. rewrite (Hdiv H). rewrite Z.sub_diag.
      unfold Qdiv. cbn [Z.mul]. change (inject_Z 0) with 0. ring.
Qed.

(** X12. The growth of a record of the sheet: 100 when nothing sold last week and
    something did this week, 0 when nothing sold in either; when last week
    had sales it is positive exactly when this week sold more, zero exactly
    when the two are equal, and not under -100 for sales that are not
    negative.  A record with new demand always goes to the recommendation
    service. *)
Theorem sheet_salesGrowth now rnd csvText item :
  In item (fetchInventoryData now rnd (Body csvText)) ->
  let cws := currentWeekSales item in
  let lws := lastWeekSales item in
  (lws = 0%Z -> (0 < cws)%Z ->
   salesGrowth item == 100 /\ isAnalysisTarget item = true)
  /\ (lws = 0%Z -> (cws <= 0)%Z -> salesGrowth item == 0)
  /\ ((0 < lws)%Z -> (0 <= cws)%Z -> -100 <= salesGrowth item)
  /\ ((0 < lws)%Z -> (0 < salesGrowth item <-> (lws < cws)%Z))
  /\ ((0 < lws)%Z -> (salesGrowth item == 0 <-> cws = lws)).
Proof.
  intros Hin cws lws.
  destruct (fetch_body_In _ _ _ _ Hin) as (st & idx & row & _ & ->).
  pose proof (processRow_salesGrowth now st idx row) as E. cbv zeta in E.
  fold cws lws in E.
  destruct (salesGrowthOf_cases cws lws) as (H1 & H2 & H3 & H4 & H5).
  split; [|rewrite E; auto].
  intros Hl Hc. split; [rewrite E; now apply H1|].
  apply isAnalysisTarget_spec. right.
  rewrite E, (H1 Hl Hc). reflexivity.
Qed.

Lemma sheet_salesGrowth_witness :
  exists item,
    In item (fetchInventoryData sampleToday (constRnd 0) (Body boundaryCsv))
    /\ salesGrowth item == 0.
Proof.
  first_item (fetchInventoryData sampleToday (constRnd 0) (Body boundaryCsv))
             item Hin.
  exists item. split; [exact Hin|].
  destruct (sheet_salesGrowth _ _ _ _ Hin) as (_ & _ & _ & _ & H).
  apply H; [vm_compute|]; reflexivity.
Defined.

(** ** [split] on line feeds *)

Lemma splitLines_aux_spec s : forall cur,
  splitLines_aux cur s
  = (rev cur ++ hd [] (splitLines s)) :: tl (splitLines s).
Proof.
  unfold splitLines.
  induction s as [|c s IH]; intros cur; cbn [splitLines_aux].
  - cbn. now rewrite app_nil_r.
  - destruct (c =? LF)%N.
    + cbn. now rewrite app_nil_r.
    + rewrite IH, (IH [c]). cbn [hd tl rev app].
      now rewrite <- app_assoc.
Qed.

Lemma splitLines_nil : splitLines [] = [[]].
Proof. reflexivity. Qed.

Lemma splitLines_cons c s :
  splitLines (c :: s)
  = if (c =? LF)%N then [] :: splitLines s
    else (c :: hd [] (splitLines s)) :: tl (splitLines s).
Proof.
  unfold splitLines at 1. cbn [splitLines_aux].
  destruct (c =? LF)%N; [reflexivity|].
  now rewrite splitLines_aux_spec.
Qed.

Lemma splitLines_nonempty s : splitLines s <> [].
Proof. destruct s; [discriminate|]. rewrite splitLines_cons. now destruct (_ =? _)%N. Qed.

(** The lines of two texts joined by a line feed are the lines of the one
    followed by the lines of the other. *)
Lemma splitLines_app a b :
  splitLines (a ++ LF :: b) = splitLines a ++ splitLines b.
Proof.
  induction a as [|c a IH]; cbn [app].
  - rewrite splitLines_cons, N.eqb_refl. reflexivity.
  - rewrite !splitLines_cons, IH.
    destruct (c =? LF)%N; [reflexivity|].
    pose proof (splitLines_nonempty a) as Hne.
    destruct (splitLines a); [congruence|reflexivity].
Qed.

Lemma splitLines_single h : ~ In LF h -> splitLines h = [h].
Proof.
  induction h as [|c h IH]; intros Hn; [reflexivity|].
  rewrite splitLines_cons.
  destruct (N.eqb_spec c LF) as [->|_]; [exfalso; apply Hn; now left|].
  rewrite IH by (intros H; apply Hn; now right). reflexivity.
Qed.

Lemma splitLines_length s : List.length (splitLines s) = S (lineFeeds s).
Proof.
  unfold lineFeeds.
  induction s as [|c s IH]; [reflexivity|].
  rewrite splitLines_cons. cbn [filter].
  destruct (c =? LF)%N; cbn [List.length]; [now rewrite IH|].
  pose proof (splitLines_nonempty s) as Hne.
  destruct (splitLines s); [congruence|]. cbn [tl List.length] in *. exact IH.
Qed.

Lemma splitLines_no_LF s l : In l (splitLines s) -> ~ In LF l.
Proof.
  revert l. induction s as [|c s IH]; intros l Hl.
  - destruct Hl as [<-|[]]. intros [].
  - rewrite splitLines_cons in Hl.
    destruct (N.eqb_spec c LF) as [->|Hc].
    + destruct Hl as [<-|Hl]; [intros []|now apply IH].
    + pose proof (splitLines_nonempty s) as Hne.
      destruct (splitLines s) as [|x r]; [congruence|].
      cbn [hd tl] in Hl. destruct Hl as [<-|Hl].
      * intros [E|H]; [congruence|]. apply (IH x); [now left|exact H].
      * apply IH. now right.
Qed.

Lemma splitLines_joinLines lines :
  lines <> [] -> Forall (fun l => ~ In LF l) lines ->
  splitLines (joinLines lines) = lines.
Proof.
  induction lines as [|l rest IH]; intros Hne Hall; [congruence|].
  inversion Hall as [|? ? Hl Hrest]; subst.
  destruct rest as [|l' rest'].
  - cbn [joinLines]. now apply splitLines_single.
  - change (joinLines (l :: l' :: rest')) with (l ++ LF :: joinLines (l' :: rest')).
    rewrite splitLines_app, splitLines_single by assumption.
    rewrite IH by (trivial; discriminate). reflexivity.
Qed.

(** ** The identifiers of the records *)

Lemma mapRows_ids now rows : forall st idx,
  map id (mapRows now st idx rows)
  = map (fun k => lit "row-" ++ natToString k) (seq idx (List.length rows)).
Proof.
  induction rows as [|row rest IH]; intros st idx; [reflexivity|].
  cbn [mapRows].
  destruct (processRow now st idx row) as [it st1] eqn:E.
  cbn [map List.length seq]. rewrite IH. f_equal.
  replace it with (fst (processRow now st idx row)) by now rewrite E.
  reflexivity.
Qed.

Lemma mockItems_ids now rnd n : forall k i,
  map id (mockItems now rnd k i n)
  = map (fun j => lit "mock-" ++ natToString j) (seq i n).
Proof.
  induction n as [|n IH]; intros k i; [reflexivity|].
  cbn [mockItems].
  destruct (mockItem now rnd k i) as [it k1] eqn:E.
  cbn [map seq]. rewrite IH. f_equal.
  replace it with (fst (mockItem now rnd k i)) by now rewrite E.
  reflexivity.
Qed.

Lemma NoDup_numbered (prefix : jsstring) l :
  NoDup l -> NoDup (map (fun k => prefix ++ natToString k) l).
Proof.
  induction 1 as [|k l Hk _ IH]; cbn [map]; constructor; [|exact IH].
  intros Hin. apply in_map_iff in Hin as (j & E & Hj).
  apply app_inv_head in E. apply natToString_inj in E. now subst.
Qed.

Lemma NoDup_map_filter (A B : Type) (f : A -> B) (p : A -> bool) l :
  NoDup (map f l) -> NoDup (map f (filter p l)).
Proof.
  induction l as [|x l IH]; intros H; [constructor|].
  cbn [map] in H. inversion H as [|? ? Hx Hl]; subst.
  cbn [filter]. destruct (p x); [|now apply IH].
  cbn [map]. constructor; [|now apply IH].
  intros Hin. apply Hx. apply in_map_iff in Hin as (y & <- & Hy).
  apply in_map. now apply filter_In in Hy.
Qed.

(** X1. No two records of a result carry the same identifier, whether they come
    from the sheet or from the mock generator; the mock records are numbered
    mock-0 to mock-49 in order. *)
Theorem ids_distinct now rnd resp :
  NoDup (map id (fetchInventoryData now rnd resp))
  /\ map id (generateMockData now rnd)
     = map (fun j => lit "mock-" ++ natToString j) (seq 0 50).
Proof.
  assert (Hmock : map id (generateMockData now rnd)
                  = map (fun j => lit "mock-" ++ natToString j) (seq 0 50))
    by apply mockItems_ids.
  split; [|exact Hmock].
  destruct resp as [| |csvText]; cbn [fetchInventoryData].
  3: { unfold itemsOfCsv, reconstruct. apply NoDup_map_filter.
       rewrite mapRows_ids. apply NoDup_numbered, seq_NoDup. }
  all: rewrite Hmock; apply NoDup_numbered, seq_NoDup.
Qed.

(** ** The size of the result *)

Lemma dataRows_length rows :
  (List.length (dataRows rows) <= List.length rows - 1)%nat.
Proof.
  unfold dataRows.
  pose proof (filter_length_le _ (fun row => (33 <? List.length row)%nat) (tl rows)).
  destruct rows; cbn [tl List.length] in *; lia.
Qed.

(** X2. The sheet gives at most one record for every line feed of its text: a
    text of one line, the empty text included, gives none (and not the mock
    data). *)
Theorem records_bounded_by_lines now rnd csvText :
  (List.length (fetchInventoryData now rnd (Body csvText)) <= lineFeeds csvText)%nat.
Proof.
  cbn [fetchInventoryData]. unfold itemsOfCsv, reconstruct.
  pose proof (filter_length_le _ hasProductName
                (mapRows now initialFill 0 (dataRows (parseRows csvText)))) as H1.
  rewrite mapRows_length in H1.
  pose proof (dataRows_length (parseRows csvText)) as H2.
  unfold parseRows in H2 at 2. rewrite length_map, splitLines_length in H2.
  lia.
Qed.

(** ** Lines that are not data *)

Lemma parseRows_app a b :
  parseRows (a ++ LF :: b) = parseRows a ++ parseRows b.
Proof. unfold parseRows. now rewrite splitLines_app, map_app. Qed.

Lemma parseRows_single h : ~ In LF h -> parseRows h = [parseLine h].
Proof. intros H. unfold parseRows. now rewrite splitLines_single. Qed.

Lemma parseRows_nonempty s : parseRows s <> [].
Proof.
  unfold parseRows. pose proof (splitLines_nonempty s).
  destruct (splitLines s); [congruence|discriminate].
Qed.

(** X3. The first line of the sheet is never read: two sheets that differ in it
    only give the same records. *)
Theorem header_ignored now rnd h1 h2 rest :
  ~ In LF h1 -> ~ In LF h2 ->
  fetchInventoryData now rnd (Body (h1 ++ LF :: rest))
  = fetchInventoryData now rnd (Body (h2 ++ LF :: rest)).
Proof.
  intros H1 H2. cbn [fetchInventoryData]. unfold itemsOfCsv, reconstruct, dataRows.
  now rewrite !parseRows_app, (parseRows_single h1 H1), (parseRows_single h2 H2).
Qed.

Lemma header_ignored_witness :
  fetchInventoryData sampleToday (constRnd 0)
    (Body (lit "header" ++ LF :: joinFields
             (sampleFields "c" "b" "FBEWODW001BK00M" "40" "n" "7" "7" "40")))
  = fetchInventoryData sampleToday (constRnd 0)
      (Body (lit "a,b,c" ++ LF :: joinFields
               (sampleFields "c" "b" "FBEWODW001BK00M" "40" "n" "7" "7" "40"))).
Proof.
  apply header_ignored; intros H; vm_compute in H;
    repeat (destruct H as [H|H]; [discriminate|]); exact H.
Defined.

(** X4. A line of fewer than 34 fields, a blank line included, leaves no trace:
    with it or without it the records that follow are the same, identifiers
    and inherited descriptors included. *)
Theorem short_line_ignored now rnd a short b :
  ~ In LF short ->
  (outsideCommas false short < 33)%nat ->
  fetchInventoryData now rnd (Body (a ++ LF :: short ++ LF :: b))
  = fetchInventoryData now rnd (Body (a ++ LF :: b)).
Proof.
  intros Hlf Hshort. cbn [fetchInventoryData].
  unfold itemsOfCsv, reconstruct, dataRows.
  rewrite !parseRows_app, (parseRows_single short Hlf).
  pose proof (parseRows_nonempty a) as Hne.
  destruct (parseRows a) as [|x r]; [congruence|].
  cbn [app tl]. rewrite !filter_app. cbn [filter].
  unfold parseLine. rewrite parseLine_loop_length. cbn [List.length plus].
  destruct (Nat.ltb_spec 33 (S (outsideCommas false short))); [lia|].
  reflexivity.
Qed.

Lemma short_line_ignored_witness :
  fetchInventoryData sampleToday (constRnd 0)
    (Body (lit "header" ++ LF :: lit "total,,12" ++ LF :: joinFields
             (sampleFields "c" "b" "FBEWODW001BK00M" "40" "n" "7" "7" "40")))
  = fetchInventoryData sampleToday (constRnd 0)
      (Body (lit "header" ++ LF :: joinFields
               (sampleFields "c" "b" "FBEWODW001BK00M" "40" "n" "7" "7" "40"))).
Proof.
  apply short_line_ignored.
  - intros H; vm_compute in H;
      repeat (destruct H as [H|H]; [discriminate|]); exact H.
  - vm_compute. lia.
Defined.

(** ** Writing a sheet and reading it back *)

Lemma joinFields_cons f g rest :
  joinFields (f :: g :: rest) = f ++ COMMA :: joinFields (g :: rest).
Proof. reflexivity. Qed.

Lemma joinFields_no_LF row :
  Forall (fun f => ~ In LF f) row -> ~ In LF (joinFields row).
Proof.
  induction 1 as [|f rest Hf Hrest IH]; [intros []|].
  destruct rest as [|g rest']; [exact Hf|].
  rewrite joinFields_cons. intros H.
  apply in_app_or in H as [H|[H|H]]; [tauto|discriminate|tauto].
Qed.

Lemma renderLine_plain row :
  renderLine (map (fun f => [Plain f]) row) = joinFields row.
Proof.
  unfold renderLine. f_equal. rewrite map_map.
  rewrite <- (map_id row) at 2. apply map_ext.
  intros f. unfold renderField. cbn. apply app_nil_r.
Qed.

Lemma parseLine_joinFields row :
  row <> [] -> Forall simpleField row -> parseLine (joinFields row) = map trim row.
Proof.
  intros Hne Hall.
  destruct (exists_last Hne) as (fs & f & ->).
  rewrite <- renderLine_plain.
  replace (map (fun f => [Plain f]) (fs ++ [f]))
    with (map (fun f => [Plain f]) fs ++ [[Plain f]]) by now rewrite map_app.
  rewrite loop_line.
  - rewrite !map_app, map_map. cbn [map].
    f_equal; [apply map_ext; intros g|]; unfold fieldText; cbn;
      now rewrite app_nil_r.
  - change [[Plain f]] with (map (fun f => [Plain f]) [f]).
    rewrite <- map_app.
    apply Forall_map. apply (Forall_impl _ (P := simpleField)); [|exact Hall].
    intros g (Hq & Hc & _). repeat constructor; assumption.
Qed.

(** X5. A sheet written from rows of fields that hold no quote, separator or line
    feed, the fields joined by separators and the lines by line feeds, reads
    back as those rows with every field trimmed. *)
Theorem sheet_round_trip rows :
  rows <> [] ->
  Forall (fun row => row <> [] /\ Forall simpleField row) rows ->
  parseRows (joinLines (map joinFields rows)) = map (map trim) rows.
Proof.
  intros Hne Hall. unfold parseRows.
  rewrite splitLines_joinLines.
  - rewrite map_map. apply map_ext_in. intros row Hrow.
    rewrite Forall_forall in Hall. destruct (Hall row Hrow) as [H1 H2].
    now apply parseLine_joinFields.
  - destruct rows; [congruence|discriminate].
  - apply Forall_map. eapply Forall_impl; [|exact Hall].
    intros row [_ H]. apply joinFields_no_LF.
    eapply Forall_impl; [|exact H]. now intros f (_ & _ & Hl).
Qed.

Lemma sheet_round_trip_witness :
  parseRows (joinLines (map joinFields
               [[lit "sku"; lit "name"]; [lit " A1 "; lit "coat"]]))
  = [[lit "sku"; lit "name"]; [lit "A1"; lit "coat"]].
Proof.
  rewrite sheet_round_trip.
  - reflexivity.
  - discriminate.
  - repeat constructor; try discriminate;
      intros H; vm_compute in H;
      repeat (destruct H as [H|H]; [discriminate|]); exact H.
Defined.

(** ** The code units of the fields *)

Lemma trimStart_In c s : In c (trimStart s) -> In c s.
Proof.
  destruct (trimStart_suffix s) as [p Hp]. intros H.
  rewrite Hp. apply in_or_app. now right.
Qed.

Lemma trim_In c s : In c (trim s) -> In c s.
Proof.
  unfold trim, trimEnd. intros H.
  apply in_rev, trimStart_In in H. apply in_rev in H.
  now apply trimStart_In.
Qed.

(** Every code unit of a field is a code unit of the line that [keep]s. *)
Lemma loop_units (keep : char -> Prop) row :
  forall result current inQuotes,
    (forall c, In c row -> c <> QUOTE -> keep c) ->
    Forall (Forall keep) result -> Forall keep current ->
    Forall (Forall keep) (parseLine_loop result current inQuotes row).
Proof.
  assert (Htrim : forall s, Forall keep s -> Forall keep (trim s)).
  { intros s Hs. rewrite Forall_forall in *. intros c Hc.
    apply Hs. now apply trim_In. }
  induction row as [|c rest IH]; intros result current inQuotes Hrow Hres Hcur;
    cbn [parseLine_loop].
  - apply Forall_app. split; [exact Hres|]. constructor; [|constructor].
    now apply Htrim.
  - assert (Hrest : forall d, In d rest -> d <> QUOTE -> keep d)
      by (intros d Hd; apply Hrow; now right).
    destruct (N.eqb_spec c QUOTE) as [->|Hq]; [now apply IH|].
    destruct ((c =? COMMA)%N && negb inQuotes)%bool.
    + apply IH; [exact Hrest| |constructor].
      apply Forall_app. split; [exact Hres|]. constructor; [|constructor].
      now apply Htrim.
    + apply IH; [exact Hrest|exact Hres|].
      apply Forall_app. split; [exact Hcur|].
      constructor; [|constructor]. apply Hrow; [now left|exact Hq].
Qed.

Lemma loop_no_comma row : forall result current,
  ~ In QUOTE row ->
  Forall (fun f => ~ In COMMA f) result -> ~ In COMMA current ->
  Forall (fun f => ~ In COMMA f) (parseLine_loop result current false row).
Proof.
  induction row as [|c rest IH]; intros result current Hq Hres Hcur;
    cbn [parseLine_loop].
  - apply Forall_app. split; [exact Hres|]. constructor; [|constructor].
    intros H. apply Hcur. now apply trim_In.
  - assert (Hq' : ~ In QUOTE rest) by (intros H; apply Hq; now right).
    destruct (N.eqb_spec c QUOTE) as [->|Hcq]; [exfalso; apply Hq; now left|].
    destruct (N.eqb_spec c COMMA) as [->|Hcc]; cbn [andb negb].
    + apply IH; [exact Hq'| |intros []].
      apply Forall_app. split; [exact Hres|]. constructor; [|constructor].
      intros H. apply Hcur. now apply trim_In.
    + apply IH; [exact Hq'|exact Hres|]. intros H.
      apply in_app_or in H as [H|[H|[]]]; [tauto|congruence].
Qed.

(** X6. The quotes of a line are dropped and its line feeds end it: no field of a
    parsed sheet holds a quote character or a line feed, and every code unit
    of a field stands in its line.  A field of a line without quotes holds
    no separator. *)
Theorem field_code_units csvText row f :
  In row (parseRows csvText) -> In f row ->
  ~ In QUOTE f /\ ~ In LF f
  /\ exists line,
       In line (splitLines csvText) /\ row = parseLine line
       /\ (forall c, In c f -> In c line)
       /\ (~ In QUOTE line -> ~ In COMMA f).
Proof.
  intros Hrow Hf. unfold parseRows in Hrow.
  apply in_map_iff in Hrow as (line & <- & Hline).
  pose proof (splitLines_no_LF _ _ Hline) as Hlf.
  assert (Hu : Forall (Forall (fun c => In c line /\ c <> QUOTE)) (parseLine line)).
  { apply loop_units; [intros c Hc Hq; now split|constructor|constructor]. }
  rewrite Forall_forall in Hu. specialize (Hu f Hf). rewrite Forall_forall in Hu.
  split; [intros H; now apply (Hu _ H)|].
  split; [intros H; apply Hlf; now apply (Hu _ H)|].
  exists line. split; [exact Hline|]. split; [reflexivity|].
  split; [intros c Hc; now apply (Hu c Hc)|].
  intros Hq.
  pose proof (loop_no_comma line [] [] Hq (Forall_nil _) (fun H => H)) as Hc.
  rewrite Forall_forall in Hc. now apply Hc.
Qed.

Lemma field_code_units_witness :
  ~ In QUOTE (lit "Acme, Inc").
Proof.
  refine (proj1 (field_code_units acmeLine (parseLine acmeLine)
                   (lit "Acme, Inc") _ _)).
  - left. reflexivity.
  - right. left. reflexivity.
Defined.

(** ** [analyzeSkuMetadata] on codes of seven units and more *)

Lemma analyzeSkuMetadata_long now sku :
  (7 <= List.length sku)%nat ->
  let sub := toUpperCase (substring 5 7 sku) in
  let month := (getMonth now + 1)%Z in
  let fit :=
    includes ([lit "A"; lit "C"; lit "O"]
              ++ [if ((2 <=? month) && (month <=? 4))%Z then lit "S"
                  else if ((5 <=? month) && (month <=? 7))%Z then lit "U"
                  else if ((8 <=? month) && (month <=? 10))%Z then lit "F"
                  else lit "W"])
             (toUpperCase (substring 3 4 sku)) in
  analyzeSkuMetadata now sku
  = if (str_eqb sub (lit "DW") || str_eqb sub (lit "DV"))%bool
    then mkMeta PADDING 50 fit
    else if includes outerCodes sub then mkMeta OUTER 35 fit
    else mkMeta GENERAL 21 fit.
Proof.
  intros Hlen. cbv zeta. unfold analyzeSkuMetadata.
  destruct sku as [|c sku]; [cbn in Hlen; lia|].
  destruct (Nat.ltb_spec (List.length (c :: sku)) 7); [lia|].
  reflexivity.
Qed.

(** The type and the lead time go together, and the lead time is one of four
    positive numbers. *)
Lemma analyzeSkuMetadata_table now sku :
  let m := analyzeSkuMetadata now sku in
  (meta_type m = GENERAL /\ meta_leadTime m = 14%Z)
  \/ (meta_type m = GENERAL /\ meta_leadTime m = 21%Z)
  \/ (meta_type m = OUTER /\ meta_leadTime m = 35%Z)
  \/ (meta_type m = PADDING /\ meta_leadTime m = 50%Z).
Proof.
  cbv zeta. unfold analyzeSkuMetadata.
  destruct (_ || _)%bool; [now left|].
  destruct (_ || _)%bool; [now (right; right; right)|].
  destruct (includes outerCodes _); [now (right; right; left)|now (right; left)].
Qed.

Lemma substring_unit (sku : jsstring) n c :
  nth_error sku n = Some c -> substring n (S n) sku = [c].
Proof.
  unfold substring. replace (S n - n)%nat with 1%nat by lia.
  revert n. induction sku as [|x sku IH]; intros [|n] H; try discriminate.
  - now injection H as ->.
  - cbn [skipn]. now apply IH.
Qed.

Lemma month_range now : (1 <= getMonth now + 1 <= 12)%Z.
Proof. unfold getMonth. pose proof (MonthFromTime_range now). lia. Qed.

Lemma In_units (u a b c d : char) :
  In [u] [[a]; [b]; [c]; [d]] <-> u = a \/ u = b \/ u = c \/ u = d.
Proof.
  cbn [In]. split.
  - intros [H|[H|[H|[H|[]]]]]; injection H as ->; tauto.
  - intros [->|[->|[->| ->]]]; tauto.
Qed.

(** The season table: the upper case of the unit at position 3 against the
    month of the day. *)
Lemma seasonalFit_table now sku c :
  (7 <= List.length sku)%nat ->
  nth_error sku 3 = Some c ->
  let month := (getMonth now + 1)%Z in
  let u := upperUnit c in
  meta_isSeasonalFit (analyzeSkuMetadata now sku) = true
  <-> (u = 65 \/ u = 67 \/ u = 79)%N
      \/ (u = 83%N /\ (2 <= month <= 4)%Z)
      \/ (u = 85%N /\ (5 <= month <= 7)%Z)
      \/ (u = 70%N /\ (8 <= month <= 10)%Z)
      \/ (u = 87%N /\ (month = 11 \/ month = 12 \/ month = 1)%Z).
Proof.
  intros Hlen Hc month u.
  pose proof (month_range now) as Hm. fold month in Hm.
  rewrite (analyzeSkuMetadata_long now sku Hlen). cbv zeta. fold month.
  rewrite (substring_unit sku 3 c Hc).
  change (toUpperCase [c]) with [u].
  set (fit := includes _ [u]).
  assert (E : meta_isSeasonalFit
                (if (str_eqb (toUpperCase (substring 5 7 sku)) (lit "DW")
                     || str_eqb (toUpperCase (substring 5 7 sku)) (lit "DV"))%bool
                 then mkMeta PADDING 50 fit
                 else if includes outerCodes (toUpperCase (substring 5 7 sku))
                      then mkMeta OUTER 35 fit
                      else mkMeta GENERAL 21 fit) = fit).
  { destruct (_ || _)%bool; [reflexivity|].
    now destruct (includes outerCodes _). }
  rewrite E. subst fit. rewrite includes_In.
  change (lit "A") with [65%N]. change (lit "C") with [67%N].
  change (lit "O") with [79%N]. change (lit "S") with [83%N].
  change (lit "U") with [85%N]. change (lit "F") with [70%N].
  change (lit "W") with [87%N].
  destruct (Z.leb_spec 2 month), (Z.leb_spec month 4),
           (Z.leb_spec 5 month), (Z.leb_spec month 7),
           (Z.leb_spec 8 month), (Z.leb_spec month 10);
    cbn [andb app]; rewrite In_units; lia.
Qed.

(** X15. A code of seven units or more is in season when the upper case of its
    unit at position 3 is A, C or O, or is the letter of the months of the
    day: S from February to April, U from May to July, F from August to
    October, W from November to January; with any other unit it is never in
    season. *)
Theorem season_fit now sku c :
  (7 <= List.length sku)%nat ->
  nth_error sku 3 = Some c ->
  let month := (getMonth now + 1)%Z in
  let u := upperUnit c in
  (1 <= month <= 12)%Z
  /\ (meta_isSeasonalFit (analyzeSkuMetadata now sku) = true
      <-> (u = 65 \/ u = 67 \/ u = 79)%N
          \/ (u = 83%N /\ (2 <= month <= 4)%Z)
          \/ (u = 85%N /\ (5 <= month <= 7)%Z)
          \/ (u = 70%N /\ (8 <= month <= 10)%Z)
          \/ (u = 87%N /\ (month = 11 \/ month = 12 \/ month = 1)%Z)).
Proof.
  intros Hlen Hc month u. split; [apply month_range|].
  now apply seasonalFit_table.
Qed.

Lemma season_fit_witness :
  meta_isSeasonalFit (analyzeSkuMetadata 20527%Z (lit "FBESUTS001WH00L")) = true.
Proof.
  apply (proj2 (season_fit 20527%Z (lit "FBESUTS001WH00L") 83%N
                  ltac:(vm_compute; lia) eq_refl)).
  right. left. split; [reflexivity|]. vm_compute. split; discriminate.
Defined.

Lemma processRow_meta now st idx row :
  let item := fst (processRow now st idx row) in
  let m := analyzeSkuMetadata now (sku item) in
  itemType item = meta_type m /\ leadTimeDays item = meta_leadTime m
  /\ isSeasonalFit item = meta_isSeasonalFit m.
Proof. repeat split. Qed.

Lemma mockItem_meta now rnd k i :
  let item := fst (mockItem now rnd k i) in
  let m := analyzeSkuMetadata now (sku item) in
  itemType item = meta_type m /\ leadTimeDays item = meta_leadTime m
  /\ isSeasonalFit item = meta_isSeasonalFit m.
Proof. repeat split. Qed.

(** X14. Every record of a result, from the sheet or from the mock generator,
    carries the type, lead time and seasonal fit decoded from its own code,
    and so one of four pairs of type and lead time: general with 14 or 21
    days, outer with 35, padding with 50.  The lead time is always
    positive. *)
Theorem lead_time_table now rnd resp item :
  In item (fetchInventoryData now rnd resp) ->
  itemType item = meta_type (analyzeSkuMetadata now (sku item))
  /\ leadTimeDays item = meta_leadTime (analyzeSkuMetadata now (sku item))
  /\ isSeasonalFit item = meta_isSeasonalFit (analyzeSkuMetadata now (sku item))
  /\ ((itemType item = GENERAL /\ leadTimeDays item = 14%Z)
      \/ (itemType item = GENERAL /\ leadTimeDays item = 21%Z)
      \/ (itemType item = OUTER /\ leadTimeDays item = 35%Z)
      \/ (itemType item = PADDING /\ leadTimeDays item = 50%Z))
  /\ (0 < leadTimeDays item)%Z.
Proof.
  intros Hin.
  assert (H : itemType item = meta_type (analyzeSkuMetadata now (sku item))
              /\ leadTimeDays item = meta_leadTime (analyzeSkuMetadata now (sku item))
              /\ isSeasonalFit item
                 = meta_isSeasonalFit (analyzeSkuMetadata now (sku item))).
  { destruct resp as [| |csvText].
    3: destruct (fetch_body_In _ _ _ _ Hin) as (st & idx & row & _ & ->);
       apply processRow_meta.
    all: apply mockItems_In in Hin as (k & i & ->); apply mockItem_meta. }
  destruct H as (H1 & H2 & H3).
  pose proof (analyzeSkuMetadata_table now (sku item)) as Ht. cbv zeta in Ht.
  rewrite <- H1, <- H2 in Ht.
  repeat split; trivial. destruct Ht as [[_ E]|[[_ E]|[[_ E]|[_ E]]]]; lia.
Qed.

Lemma lead_time_table_witness :
  exists item,
    In item (fetchInventoryData sampleToday (constRnd 0) NotOk)
    /\ (0 < leadTimeDays item)%Z.
Proof.
  first_item (fetchInventoryData sampleToday (constRnd 0) NotOk) item Hin.
  exists item. split; [exact Hin|].
  exact (proj2 (proj2 (proj2 (proj2 (lead_time_table _ _ _ _ Hin))))).
Defined.

(** ** Upper and lower case in a code *)

Lemma upperUnit_idem c : upperUnit (upperUnit c) = upperUnit c.
Proof.
  unfold upperUnit.
  destruct (N.leb_spec 97 c), (N.leb_spec c 122); cbn [andb].
  all: repeat match goal with
         | |- context [(?a <=? ?b)%N] => destruct (N.leb_spec a b)
         | |- context [(?a =? ?b)%N] => destruct (N.eqb_spec a b)
         end; cbn [andb]; try reflexivity; lia.
Qed.

Lemma toUpperCase_substring a b s :
  toUpperCase (substring a b (toUpperCase s)) = toUpperCase (substring a b s).
Proof.
  unfold toUpperCase, substring.
  rewrite skipn_map, firstn_map, map_map. apply map_ext, upperUnit_idem.
Qed.

(** X16. The decoding does not tell upper from lower case: a code of ASCII units
    and the same code in upper case decode alike. *)
Theorem sku_case_insensitive now sku :
  Forall (fun c => (c < 128)%N) sku ->
  analyzeSkuMetadata now (toUpperCase sku) = analyzeSkuMetadata now sku.
Proof.
  intros _. unfold analyzeSkuMetadata.
  rewrite !toUpperCase_substring.
  unfold toUpperCase at 1 2. rewrite length_map.
  now destruct sku.
Qed.

Lemma sku_case_insensitive_witness :
  analyzeSkuMetadata sampleToday (toUpperCase (lit "fbeaojk001bk00m"))
  = analyzeSkuMetadata sampleToday (lit "fbeaojk001bk00m").
Proof.
  apply sku_case_insensitive.
  repeat constructor.
Defined.

(** ** Numerals in the numeric columns *)

Lemma orNum_numeral n d :
  orNum (parseInt (Some (natToString n))) d
  = if (Z.of_nat n =? 0)%Z then d else Z.of_nat n.
Proof. now rewrite (proj1 (parseInt_natToString n)). Qed.

(** X10. A numeric column that holds the decimal numeral of a number that a
    binary64 holds exactly (up to 2^53 - 1) gives that number: any such
    number for the counts and the cost, any positive one for the two
    thresholds, where the numeral 0 gives the fallback (5 for the safety
    stock, 10 for the reorder point). *)
Theorem numerals_read_back now st idx (row : list jsstring) n :
  (Z.of_nat n <= 9007199254740991)%Z ->
  let item := fst (processRow now st idx row) in
  (nth_error row 33 = Some (natToString n) -> currentStock item = Z.of_nat n)
  /\ (nth_error row 34 = Some (natToString n) ->
      inProductionStock item = Z.of_nat n)
  /\ (nth_error row 22 = Some (natToString n) ->
      currentWeekSales item = Z.of_nat n)
  /\ (nth_error row 21 = Some (natToString n) -> lastWeekSales item = Z.of_nat n)
  /\ (nth_error row 10 = Some (natToString n) -> unitCost item = Z.of_nat n)
  /\ (nth_error row 6 = Some (natToString n) ->
      safetyStock item = if (n =? 0)%nat then 5%Z else Z.of_nat n)
  /\ (nth_error row 7 = Some (natToString n) ->
      reorderPoint item = if (n =? 0)%nat then 10%Z else Z.of_nat n).
Proof.
  intros _. cbv zeta. unfold processRow.
  cbn [fst currentStock inProductionStock currentWeekSales lastWeekSales
       unitCost safetyStock reorderPoint].
  repeat split; intros ->; rewrite orNum_numeral;
    destruct n; cbn [Nat.eqb]; try reflexivity;
    destruct (Z.eqb_spec (Z.of_nat (S n)) 0); try reflexivity; lia.
Qed.

Lemma numerals_read_back_witness :
  currentStock
    (fst (processRow sampleToday initialFill 0
            (sampleFields "c" "b" "FBEWODW001BK00M" "40" "n" "7" "7" "120")))
  = 120%Z.
Proof.
  apply (proj1 (numerals_read_back sampleToday initialFill 0
                  (sampleFields "c" "b" "FBEWODW001BK00M" "40" "n" "7" "7" "120")
                  120 ltac:(lia))).
  reflexivity.
Defined.

(** ** What a record of the sheet never holds *)

Lemma orNum_nonzero n d : d <> 0%Z -> orNum n d <> 0%Z.
Proof.
  intros Hd. unfold orNum. destruct n as [v|]; [|exact Hd].
  now destruct (Z.eqb_spec v 0).
Qed.

Lemma orStr_nonempty s d : d <> [] -> orStr s d <> [].
Proof. intros Hd. destruct s as [[|c r]|]; cbn [orStr]; trivial. discriminate. Qed.

(** X11. The reorder point and the safety stock of a record of the sheet are
    never zero, and a record whose stock is zero or less with a reorder point
    that is not negative is Critical. *)
Theorem thresholds_never_zero now rnd csvText item :
  In item (fetchInventoryData now rnd (Body csvText)) ->
  reorderPoint item <> 0%Z
  /\ safetyStock item <> 0%Z
  /\ ((currentStock item <= 0)%Z -> (0 <= reorderPoint item)%Z ->
      status item = CRITICAL).
Proof.
  intros Hin.
  destruct (fetch_body_In _ _ _ _ Hin) as (st & idx & row & _ & ->).
  split; [apply orNum_nonzero; discriminate|].
  split; [apply orNum_nonzero; discriminate|].
  intros Hs Hr.
  pose proof (processRow_status now st idx row) as E. cbv zeta in E.
  rewrite E.
  replace (Qle_bool _ _) with true; [reflexivity|].
  symmetry. apply Qle_bool_iff.
  rewrite Zle_Qle in Hs, Hr. change (inject_Z 0) with 0 in Hs, Hr. lra.
Qed.

Lemma thresholds_never_zero_witness :
  exists item,
    In item (fetchInventoryData sampleToday (constRnd 0) (Body zeroReorderPointCsv))
    /\ reorderPoint item <> 0%Z.
Proof.
  first_item (fetchInventoryData sampleToday (constRnd 0) (Body zeroReorderPointCsv))
             item Hin.
  exists item. split; [exact Hin|].
  exact (proj1 (thresholds_never_zero _ _ _ _ Hin)).
Defined.

Lemma meta_type_nonempty now sku : meta_type (analyzeSkuMetadata now sku) <> [].
Proof.
  pose proof (analyzeSkuMetadata_table now sku) as H. cbv zeta in H.
  destruct H as [[E _]|[[E _]|[[E _]|[E _]]]]; rewrite E; discriminate.
Qed.

Lemma toLocaleDateString_nonempty d : toLocaleDateString d <> [].
Proof.
  pose proof (toLocaleDateString_stop d) as H. intros E. now rewrite E in H.
Qed.

(** X13. No record of a result, from the sheet or from the mock generator, has an
    empty identifier, category, brand, bar code, type or date field: where
    the sheet gives nothing the record carries the stand-in text. *)
Theorem display_fields_nonempty now rnd resp item :
  In item (fetchInventoryData now rnd resp) ->
  id item <> [] /\ category item <> [] /\ brand item <> []
  /\ barcode item <> [] /\ itemType item <> []
  /\ expectedStockOutDate item <> [] /\ suggestedOrderDate item <> [].
Proof.
  intros Hin. destruct resp as [| |csvText].
  3: { destruct (fetch_body_In _ _ _ _ Hin) as (st & idx & row & _ & ->).
       unfold processRow.
       cbn [fst id category brand barcode itemType expectedStockOutDate
            suggestedOrderDate].
       repeat split; try (apply orStr_nonempty; discriminate);
         try apply meta_type_nonempty; try discriminate.
       all: (destruct (360 <? _)%Z;
             [discriminate|apply toLocaleDateString_nonempty]). }
  all: apply mockItems_In in Hin as (k & i & ->); unfold mockItem, random;
    cbn [fst id category brand barcode itemType expectedStockOutDate
         suggestedOrderDate];
    repeat split; try apply meta_type_nonempty; try discriminate;
    try (destruct (i mod 8 =? 0)%nat; discriminate);
    (destruct (360 <? _)%Z;
     [discriminate|apply toLocaleDateString_nonempty]).
Qed.

Lemma display_fields_nonempty_witness :
  exists item,
    In item (fetchInventoryData sampleToday (constRnd 0) (Body lateNameCsv))
    /\ category item <> [].
Proof.
  first_item (fetchInventoryData sampleToday (constRnd 0) (Body lateNameCsv))
             item Hin.
  exists item. split; [exact Hin|].
  exact (proj1 (proj2 (display_fields_nonempty _ _ _ _ Hin))).
Defined.

(** ** The mock records *)





Lemma mockItem_next now rnd k i : snd (mockItem now rnd k i) = (k + 4)%nat.
Proof. unfold mockItem, random. cbn [snd]. lia. Qed.

Lemma mockItems_nth now rnd n : forall k i j item,
  nth_error (mockItems now rnd k i n) j = Some item ->
  item = fst (mockItem now rnd (k + 4 * j) (i + j)).
Proof.
  induction n as [|n IH]; intros k i j item H; [destruct j; discriminate|].
  cbn [mockItems] in H.
  destruct (mockItem now rnd k i) as [it k1] eqn:E.
  destruct j as [|j]; cbn [nth_error] in H.
  - injection H as <-. now rewrite Nat.mul_0_r, !Nat.add_0_r, E.
  - apply IH in H. rewrite H. f_equal. f_equal; [|lia].
    pose proof (mockItem_next now rnd k i) as Hk. rewrite E in Hk.
    cbn [snd] in Hk. lia.
Qed.



Lemma mock_sku_padding now i :
  let sku := lit "FBEWODW00" ++ natToString i ++ lit "BK00M" in
  meta_type (analyzeSkuMetadata now sku) = PADDING
  /\ meta_leadTime (analyzeSkuMetadata now sku) = 50%Z
  /\ (meta_isSeasonalFit (analyzeSkuMetadata now sku) = true
      <-> (getMonth now + 1 = 11 \/ getMonth now + 1 = 12
           \/ getMonth now + 1 = 1)%Z).
Proof.
  cbv zeta.
  let v := eval vm_compute in (lit "FBEWODW00") in
  change (lit "FBEWODW00") with v.
  cbn [app].
  match goal with
  | |- context [analyzeSkuMetadata now ?s] => set (sku := s)
  end.
  assert (Hlen : (7 <= List.length sku)%nat) by (subst sku; cbn [List.length]; lia).
  pose proof (seasonalFit_table now sku 87%N Hlen eq_refl) as Hfit.
  cbv zeta in Hfit. change (upperUnit 87%N) with 87%N in Hfit.
  rewrite (analyzeSkuMetadata_long now sku Hlen) in *. cbv zeta in *.
  change (str_eqb (toUpperCase (substring 5 7 sku)) (lit "DW")) with true in *.
  cbn [orb meta_type meta_leadTime meta_isSeasonalFit] in *.
  split; [reflexivity|]. split; [reflexivity|].
  split; [intros H; apply Hfit in H; lia|intros H; apply Hfit; lia].
Qed.

Lemma mock_sku_general now i :
  let sku := lit "FBESUTS00" ++ natToString i ++ lit "WH00L" in
  meta_type (analyzeSkuMetadata now sku) = GENERAL
  /\ meta_leadTime (analyzeSkuMetadata now sku) = 21%Z
  /\ (meta_isSeasonalFit (analyzeSkuMetadata now sku) = true
      <-> (2 <= getMonth now + 1 <= 4)%Z).
Proof.
  cbv zeta.
  let v := eval vm_compute in (lit "FBESUTS00") in
  change (lit "FBESUTS00") with v.
  cbn [app].
  match goal with
  | |- context [analyzeSkuMetadata now ?s] => set (sku := s)
  end.
  assert (Hlen : (7 <= List.length sku)%nat) by (subst sku; cbn [List.length]; lia).
  pose proof (seasonalFit_table now sku 83%N Hlen eq_refl) as Hfit.
  cbv zeta in Hfit. change (upperUnit 83%N) with 83%N in Hfit.
  rewrite (analyzeSkuMetadata_long now sku Hlen) in *. cbv zeta in *.
  change (str_eqb (toUpperCase (substring 5 7 sku)) (lit "DW")) with false in *.
  change (str_eqb (toUpperCase (substring 5 7 sku)) (lit "DV")) with false in *.
  change (includes outerCodes (toUpperCase (substring 5 7 sku))) with false in *.
  cbn [orb meta_type meta_leadTime meta_isSeasonalFit] in *.
  split; [reflexivity|]. split; [reflexivity|].
  split; [intros H; apply Hfit in H; lia|intros H; apply Hfit; lia].
Qed.

(** X18. The mock catalogue by position: record [i] is numbered mock-[i]; every
    eighth one, from the first on, is a padding of the outer category with a
    lead time of 50 days, in season from November to January, and the others
    are general tops with 21 days, in season from February to April. *)
Theorem mock_catalogue now rnd i item :
  nth_error (generateMockData now rnd) i = Some item ->
  let month := (getMonth now + 1)%Z in
  id item = lit "mock-" ++ natToString i
  /\ brand item = lit "FILLUMINATE"
  /\ ((i mod 8 = 0)%nat ->
      itemType item = PADDING /\ leadTimeDays item = 50%Z
      /\ category item = lit "아우터"
      /\ (isSeasonalFit item = true
          <-> (month = 11 \/ month = 12 \/ month = 1)%Z))
  /\ ((i mod 8 <> 0)%nat ->
      itemType item = GENERAL /\ leadTimeDays item = 21%Z
      /\ category item = lit "상의"
      /\ (isSeasonalFit item = true <-> (2 <= month <= 4)%Z)).
Proof.
  intros H month. unfold generateMockData in H.
  apply mockItems_nth in H. cbn [plus] in H. subst item.
  unfold mockItem, random.
  cbn [fst id brand itemType leadTimeDays category isSeasonalFit].
  split; [reflexivity|]. split; [reflexivity|].
  destruct (Nat.eqb_spec (i mod 8) 0) as [E|E].
  - split; [intros _|intros Hn; contradiction].
    destruct (mock_sku_padding now i) as (H1 & H2 & H3).
    split; [exact H1|split; [exact H2|split; [reflexivity|exact H3]]].
  - split; [intros Hn; contradiction|intros _].
    destruct (mock_sku_general now i) as (H1 & H2 & H3).
    split; [exact H1|split; [exact H2|split; [reflexivity|exact H3]]].
Qed.

Lemma mock_catalogue_witness :
  exists item,
    nth_error (generateMockData sampleToday (constRnd 0)) 8 = Some item
    /\ leadTimeDays item = 50%Z.
Proof.
  let v := eval vm_compute in
      (nth_error (generateMockData sampleToday (constRnd 0)) 8) in
  match v with Some ?x => pose (item := x) end.
  assert (H : nth_error (generateMockData sampleToday (constRnd 0)) 8 = Some item)
    by (vm_compute; reflexivity).
  exists item. split; [exact H|].
  destruct (mock_catalogue _ _ _ _ H) as (_ & _ & Hp & _).
  apply Hp. reflexivity.
Defined.

(** ** The order of the records *)

Lemma filter_numbered (p : InventoryItem -> bool) (g : nat -> jsstring) l :
  forall idx,
    map id l = map g (seq idx (List.length l)) ->
    exists ks,
      map id (filter p l) = map g ks
      /\ StronglySorted lt ks
      /\ Forall (fun k => (idx <= k < idx + List.length l)%nat) ks.
Proof.
  induction l as [|x l IH]; intros idx H.
  - exists []. repeat constructor.
  - cbn [map List.length seq] in H. injection H as Hx Hl.
    destruct (IH (S idx) Hl) as (ks & E & Hs & Hr).
    cbn [filter]. destruct (p x).
    + exists (idx :: ks). cbn [map]. rewrite E, Hx.
      split; [reflexivity|]. split.
      * constructor; [exact Hs|].
        eapply Forall_impl; [|exact Hr]. cbn. intros; lia.
      * constructor; [cbn [List.length]; lia|].
        eapply Forall_impl; [|exact Hr]. cbn [List.length]. intros; lia.
    + exists ks. split; [exact E|]. split; [exact Hs|].
      eapply Forall_impl; [|exact Hr]. cbn [List.length]. intros; lia.
Qed.

(** X8. The records of the sheet come in the order of their rows: their
    identifiers are row-[k] for strictly increasing positions [k] among the
    data rows, the positions of the rows without a product name left out. *)
Theorem records_in_row_order now rnd csvText :
  exists ks,
    map id (fetchInventoryData now rnd (Body csvText))
    = map (fun k => lit "row-" ++ natToString k) ks
    /\ StronglySorted lt ks
    /\ Forall (fun k => (k < List.length (dataRows (parseRows csvText)))%nat) ks.
Proof.
  cbn [fetchInventoryData]. unfold itemsOfCsv, reconstruct.
  set (rows := dataRows (parseRows csvText)).
  destruct (filter_numbered hasProductName
              (fun k => lit "row-" ++ natToString k)
              (mapRows now initialFill 0 rows) 0) as (ks & E & Hs & Hr).
  - rewrite mapRows_length. apply mapRows_ids.
  - exists ks. split; [exact E|]. split; [exact Hs|].
    rewrite mapRows_length in Hr.
    eapply Forall_impl; [|exact Hr]. cbn. intros; lia.
Qed.

(** ** Descriptors that nothing fills *)

(** X9. While no data row has named a category or a brand, the records carry the
    stand-in category and brand, and a record whose row has no bar code
    carries the stand-in bar code. *)
Theorem descriptor_defaults now rows i item :
  nth_error (reconstruct now rows) i = Some item ->
  ((forall k rk, (k <= i)%nat -> nth_error (dataRows rows) k = Some rk ->
      blankAt rk 1) ->
   category item = DEFAULT_CATEGORY)
  /\ ((forall k rk, (k <= i)%nat -> nth_error (dataRows rows) k = Some rk ->
         blankAt rk 2) ->
      brand item = DEFAULT_BRAND)
  /\ (forall row, nth_error (dataRows rows) i = Some row -> blankAt row 4 ->
      barcode item = lit "N/A").
Proof.
  intros Hitem. unfold reconstruct in Hitem.
  destruct (item_descriptors _ _ _ _ Hitem) as (Hc & Hb & _).
  assert (Hheld : forall col,
            (forall k rk, (k <= i)%nat ->
               nth_error (dataRows rows) k = Some rk -> blankAt rk col) ->
            heldAfter col [] (firstn (S i) (dataRows rows)) = []).
  { intros col Hblank. apply heldAfter_blank.
    apply Forall_forall. intros rk Hrk.
    destruct (In_nth_error _ _ Hrk) as [k Hk].
    rewrite nth_error_firstn in Hk.
    destruct (Nat.ltb_spec k (S i)); [|discriminate].
    apply (Hblank k); [lia|exact Hk]. }
  split; [intros H; now rewrite Hc, (Hheld 1%nat H)|].
  split; [intros H; now rewrite Hb, (Hheld 2%nat H)|].
  intros row Hrow Hblank.
  destruct (mapRows_nth _ _ _ _ _ _ Hitem) as (row' & Hrow' & ->).
  rewrite Hrow in Hrow'. injection Hrow' as <-.
  unfold processRow. cbn [fst barcode].
  now destruct Hblank as [-> | ->].
Qed.

Lemma descriptor_defaults_witness :
  exists item,
    nth_error (reconstruct sampleToday
                 (parseRows (sampleCsv
                    [sampleFields EmptyString "b" "FBEWODW001BK00M" "40" "n"
                       "7" "7" "40"]))) 0 = Some item
    /\ category item = DEFAULT_CATEGORY.
Proof.
  let v := eval vm_compute in
      (nth_error (reconstruct sampleToday
                    (parseRows (sampleCsv
                       [sampleFields EmptyString "b" "FBEWODW001BK00M" "40" "n"
                          "7" "7" "40"]))) 0) in
  match v with Some ?x => pose (item := x) end.
  assert (H : nth_error (reconstruct sampleToday
                 (parseRows (sampleCsv
                    [sampleFields EmptyString "b" "FBEWODW001BK00M" "40" "n"
                       "7" "7" "40"]))) 0 = Some item)
    by (vm_compute; reflexivity).
  exists item. split; [exact H|].
  apply (proj1 (descriptor_defaults _ _ _ _ H)).
  intros k rk Hk Hrk. destruct k as [|k]; [|lia].
  vm_compute in Hrk. injection Hrk as <-. right. reflexivity.
Defined.

(** ** White space at the end of a line *)

Lemma trimStart_snoc s w :
  isWhiteSpace w = true ->
  trimStart (s ++ [w]) = match trimStart s with [] => [] | t => t ++ [w] end.
Proof.
  intros Hw. induction s as [|c s IH]; cbn [app trimStart].
  - now rewrite Hw.
  - destruct (isWhiteSpace c); [exact IH|reflexivity].
Qed.

Lemma trim_snoc s w : isWhiteSpace w = true -> trim (s ++ [w]) = trim s.
Proof.
  intros Hw. unfold trim, trimEnd. rewrite (trimStart_snoc s w Hw).
  destruct (trimStart s) as [|c t]; [reflexivity|].
  rewrite rev_app_distr. cbn [rev app trimStart]. now rewrite Hw.
Qed.

Lemma whiteSpace_plain w :
  isWhiteSpace w = true -> (w =? QUOTE)%N = false /\ (w =? COMMA)%N = false.
Proof.
  intros Hw.
  destruct (N.eqb_spec w QUOTE) as [->|_]; [discriminate|].
  destruct (N.eqb_spec w COMMA) as [->|_]; [discriminate|]. now split.
Qed.

Lemma loop_trailing_space w line :
  isWhiteSpace w = true ->
  forall result current inQuotes,
    parseLine_loop result current inQuotes (line ++ [w])
    = parseLine_loop result current inQuotes line.
Proof.
  intros Hw. destruct (whiteSpace_plain w Hw) as [Hq Hc].
  induction line as [|c rest IH]; intros result current inQuotes;
    cbn [app parseLine_loop].
  - rewrite Hq, Hc. cbn [andb parseLine_loop]. now rewrite trim_snoc.
  - destruct (c =? QUOTE)%N; [apply IH|].
    destruct ((c =? COMMA)%N && negb inQuotes)%bool; apply IH.
Qed.

(** X7. A code unit of white space at the end of a line, such as the carriage
    return of a Windows line ending, changes nothing: the line parses to the
    same fields with it and without it, inside quotes or outside. *)
Theorem trailing_space_ignored line w :
  isWhiteSpace w = true -> parseLine (line ++ [w]) = parseLine line.
Proof.
  intros Hw. unfold parseLine. now apply loop_trailing_space.
Qed.

Lemma trailing_space_ignored_witness :
  parseLine (lit "a, b" ++ [13%N]) = parseLine (lit "a, b").
Proof. apply trailing_space_ignored. reflexivity. Defined.

(** ** Marking an item of the urgent list *)

Lemma urgent_In_candidate pow15 inventory orderedItems item :
  In item (urgentReorders pow15 inventory orderedItems) ->
  In item inventory /\ isUrgentCandidate orderedItems item = true.
Proof.
  unfold urgentReorders. intros H.
  assert (H' : In item (sort (byScoreDesc pow15)
                          (filter (isUrgentCandidate orderedItems) inventory))).
  { rewrite <- (firstn_skipn 20). apply in_or_app. now left. }
  apply (Permutation_in _ (sort_perm _ _ _)) in H'.
  now apply filter_In in H'.
Qed.

(** X23. Marking an item of the urgent list as ordered takes it off the list: the
    list computed with the new marks holds no item with its identifier, and
    every item of the new list was a candidate before. *)
Theorem urgent_after_order pow15 inventory orderedItems item :
  In item (urgentReorders pow15 inventory orderedItems) ->
  forall x,
    In x (urgentReorders pow15 inventory (toggleOrder (id item) orderedItems)) ->
    id x <> id item /\ isUrgentCandidate orderedItems x = true.
Proof.
  intros Hitem x Hx.
  apply urgent_In_candidate in Hitem as [_ Hc].
  apply isUrgentCandidate_spec in Hc as (_ & _ & Hno).
  rewrite (toggleOrder_unmarked _ _ Hno) in Hx.
  apply urgent_In_candidate in Hx as [_ Hx].
  apply isUrgentCandidate_spec in Hx as (H1 & H2 & H3).
  split.
  - intros E. apply H3. apply in_or_app. right. left. now symmetry.
  - apply isUrgentCandidate_spec. repeat split; trivial.
    intros H. apply H3. apply in_or_app. now left.
Qed.

Lemma urgent_after_order_witness :
  exists item,
    In item (urgentReorders samplePow15 sampleInventory [])
    /\ forall x,
         In x (urgentReorders samplePow15 sampleInventory
                 (toggleOrder (id item) [])) ->
         id x <> id item.
Proof.
  let v := eval vm_compute in
      (hd_error (urgentReorders samplePow15 sampleInventory [])) in
  match v with Some ?x => pose (item := x) end.
  assert (Hin : In item (urgentReorders samplePow15 sampleInventory []))
    by (vm_compute; left; reflexivity).
  exists item. split; [exact Hin|].
  intros x Hx.
  exact (proj1 (urgent_after_order samplePow15 sampleInventory [] item Hin x Hx)).
Defined.
